(** * Document approval workflow backend (server2.js)

    A shallow embedding of the Express handlers of [server2.js] and of the
    state they act on: the MySQL tables [documents] and [users], the
    process-wide [otpStore], the Google Drive folder, the local [uploads/]
    directory, the messages handed to the mail transporter and the console.

    Handlers are computations in a state-and-exception monad over [World].
    The services the server talks to (MySQL, Drive, the mail transport) are
    external: whether a given call is answered or rejected is read from an
    [Oracle], one entry per call, so that every theorem quantified over worlds
    covers every pattern of outages. *)

From stdpp Require Import base strings pretty gmap list.
From Stdlib Require Import ZArith String Ascii Lia.
From Stdlib Require Import Sorted Permutation.

Open Scope string_scope.
Open Scope list_scope.
Open Scope Z_scope.

(** ** Strings *)

Module Str.

(** A template literal is a concatenation; the double quote that some of
    the subjects contain is spelled by its code. *)
Definition dquote : string := String "034"%char EmptyString.

Fixpoint is_prefix (p s : string) : bool :=
  match p, s with
  | EmptyString, _ => true
  | String a p', String b s' => if Ascii.eqb a b then is_prefix p' s' else false
  | String _ _, EmptyString => false
  end.

(** [includes s k]: [k] occurs in [s] as a contiguous run of characters. *)
Fixpoint includes (s k : string) : bool :=
  is_prefix k s ||
  match s with
  | EmptyString => false
  | String _ s' => includes s' k
  end.

(** [String.prototype.toLowerCase] on the ASCII letters, which is all the
    comparison with [".pdf"] can observe: no other character lowercases to
    [p], [d] or [f]. *)
Definition lower_char (c : ascii) : ascii :=
  let n := N_of_ascii c in
  if ((65 <=? n) && (n <=? 90))%N then ascii_of_N (n + 32) else c.

Fixpoint toLowerCase (s : string) : string :=
  match s with
  | EmptyString => EmptyString
  | String c s' => String (lower_char c) (toLowerCase s')
  end.

Fixpoint rev_chars (s : string) (acc : list ascii) : list ascii :=
  match s with
  | EmptyString => acc
  | String c s' => rev_chars s' (c :: acc)
  end.

(** [s.slice(from, to)] for [0 <= from <= to]. *)
Definition slice (from to : Z) (s : string) : string :=
  String.substring (Z.to_nat from) (Z.to_nat (to - from)) s.

(** A JavaScript value is truthy in a condition unless it is the empty
    string (or absent, which [option] covers where it matters). *)
Definition truthy (s : string) : bool :=
  match s with EmptyString => false | _ => true end.

End Str.

(** ** [path.extname] (POSIX flavour of Node's [path] module)

    The scan runs from the last character to the first, as the library's
    loop does, with the same five variables and the same [-1] sentinels. *)

Module Path.

Record Scan := {
  startDot : Z;
  startPart : Z;
  end_ : Z;
  matchedSlash : bool;
  preDotState : Z
}.

Definition scan0 : Scan :=
  {| startDot := -1; startPart := 0; end_ := -1;
     matchedSlash := true; preDotState := 0 |}.

(** [rpath] holds the characters [path[i]], [path[i-1]], ..., [path[0]]. *)
Fixpoint scan (rpath : list ascii) (i : Z) (st : Scan) : Scan :=
  match rpath with
  | [] => st
  | code :: rest =>
    if Ascii.eqb code "/" then
      if negb (matchedSlash st) then
        (* a separator that is not trailing: stop *)
        {| startDot := startDot st; startPart := i + 1; end_ := end_ st;
           matchedSlash := matchedSlash st; preDotState := preDotState st |}
      else scan rest (i - 1) st
    else
      let st1 :=
        if end_ st =? -1 then
          {| startDot := startDot st; startPart := startPart st; end_ := i + 1;
             matchedSlash := false; preDotState := preDotState st |}
        else st in
      let st2 :=
        if Ascii.eqb code "." then
          if startDot st1 =? -1 then
            {| startDot := i; startPart := startPart st1; end_ := end_ st1;
               matchedSlash := matchedSlash st1; preDotState := preDotState st1 |}
          else if negb (preDotState st1 =? 1) then
            {| startDot := startDot st1; startPart := startPart st1; end_ := end_ st1;
               matchedSlash := matchedSlash st1; preDotState := 1 |}
          else st1
        else if negb (startDot st1 =? -1) then
          {| startDot := startDot st1; startPart := startPart st1; end_ := end_ st1;
             matchedSlash := matchedSlash st1; preDotState := -1 |}
        else st1 in
      scan rest (i - 1) st2
  end.

Definition extname (path : string) : string :=
  let st := scan (Str.rev_chars path []) (Z.of_nat (String.length path) - 1) scan0 in
  if (startDot st =? -1) || (end_ st =? -1) || (preDotState st =? 0) ||
     ((preDotState st =? 1) && (startDot st =? end_ st - 1) &&
      (startDot st =? startPart st + 1))
  then EmptyString
  else Str.slice (startDot st) (end_ st) path.

End Path.

(** ** Data model *)

(** Modelled from the spec: the declaration of the table [documents] (the
    repository has no schema file). The columns are those of the persisted
    schema the specification lists; the key [id] is numeric and assigned by
    the table on INSERT; the columns the upload statement does not list are
    nullable; the character columns compare exactly ("exact match"), with no
    folding of case or trailing blanks by a collation. *)
Record Document := {
  id : Z;
  document_name : string;
  document_link : option string;
  uploaded_by : string;
  upload_time : option Z;
  approval_status : string;
  approved_by : option string;
  approval_time : option Z;
  review_status : string;
  reviewer : option string;
  review_time : option Z
}.

(** Modelled from the spec: the declaration of the table [users], as far as
    the workflow reads it ([username] and [email]). *)
Record User := {
  username : string;
  email : string
}.

(** The message object handed to [transporter.sendMail]. *)
Record Mail := {
  from : option string;
  to : list (option string);
  subject : string;
  html : string
}.

(** A file in the shared Drive folder. *)
Record DriveFile := {
  file_id : string;
  drive_name : string;
  parents : list (option string);
  mimeType : string;
  media : string;
  anyone_reader : bool
}.

(** A file under [uploads/], written by multer's disk storage. *)
Record LocalFile := {
  local_path : string;
  bytes : string
}.

(** [process.env], as far as the workflow reads it. *)
Record Env := {
  EMAIL_USER : option string;
  APPROVER_EMAIL : option string;
  REVIEWER_EMAIL : option string;
  SHAREDDRIVE : option string
}.

(** What the outside world answers.  Call number [n] to a service is
    rejected with [Error(msg)] when the entry is [Some msg]; Drive chooses the
    identifier of the file it creates. *)
Record Oracle := {
  db_fault : nat -> option string;
  mail_fault : nat -> option string;
  drive_fault : nat -> option string;
  drive_file_id : nat -> string
}.

Record World := {
  documents : list Document;
  users : list User;
  auto_increment : Z;
  otpStore : gmap string string;
  drive : list DriveFile;
  uploads : list LocalFile;
  outbox : list Mail;          (* every message handed to the transporter *)
  console : list string;
  clock : Z;                   (* milliseconds since the epoch *)
  tz_offset : Z;               (* the server's zone, milliseconds east of UTC *)
  env : Env;
  oracle : Oracle;
  db_calls : nat;
  mail_calls : nat;
  drive_calls : nat
}.

(** The part of the world that outlives a request: what a handler is said to
    mutate or to leave alone. *)
Definition persistent (w : World) :=
  (documents w, users w, auto_increment w, otpStore w, drive w, uploads w).

Inductive exn := JsError (message : string).

Definition message_of (e : exn) : string := let 'JsError m := e in m.

(** ** Responses *)

Inductive Body :=
| Message (message : string)                  (* { message } *)
| ErrorBody (error : string)                  (* { error } *)
| ErrorDetail (error detail : string)         (* { error, detail } *)
| SuccessMessage (message : string)           (* { success: true, message } *)
| Rows (rows : list Document)                 (* res.json(rows) *)
| SentError (err : exn)                       (* res.send(err) *)
| DefaultErrorPage (err : exn).               (* Express's own handler, after next(err) *)

Record Response := {
  status : Z;
  body : Body
}.

Definition json (code : Z) (b : Body) : Response := {| status := code; body := b |}.

(** ** Field updates on the world *)

Definition set_documents (ds : list Document) (w : World) : World :=
  {| documents := ds; users := users w; auto_increment := auto_increment w;
     otpStore := otpStore w; drive := drive w; uploads := uploads w;
     outbox := outbox w; console := console w; clock := clock w;
     tz_offset := tz_offset w; env := env w; oracle := oracle w;
     db_calls := db_calls w; mail_calls := mail_calls w; drive_calls := drive_calls w |}.

Definition set_auto_increment (n : Z) (w : World) : World :=
  {| documents := documents w; users := users w; auto_increment := n;
     otpStore := otpStore w; drive := drive w; uploads := uploads w;
     outbox := outbox w; console := console w; clock := clock w;
     tz_offset := tz_offset w; env := env w; oracle := oracle w;
     db_calls := db_calls w; mail_calls := mail_calls w; drive_calls := drive_calls w |}.

Definition set_otpStore (s : gmap string string) (w : World) : World :=
  {| documents := documents w; users := users w; auto_increment := auto_increment w;
     otpStore := s; drive := drive w; uploads := uploads w;
     outbox := outbox w; console := console w; clock := clock w;
     tz_offset := tz_offset w; env := env w; oracle := oracle w;
     db_calls := db_calls w; mail_calls := mail_calls w; drive_calls := drive_calls w |}.

Definition set_drive (fs : list DriveFile) (w : World) : World :=
  {| documents := documents w; users := users w; auto_increment := auto_increment w;
     otpStore := otpStore w; drive := fs; uploads := uploads w;
     outbox := outbox w; console := console w; clock := clock w;
     tz_offset := tz_offset w; env := env w; oracle := oracle w;
     db_calls := db_calls w; mail_calls := mail_calls w; drive_calls := drive_calls w |}.

Definition set_uploads (fs : list LocalFile) (w : World) : World :=
  {| documents := documents w; users := users w; auto_increment := auto_increment w;
     otpStore := otpStore w; drive := drive w; uploads := fs;
     outbox := outbox w; console := console w; clock := clock w;
     tz_offset := tz_offset w; env := env w; oracle := oracle w;
     db_calls := db_calls w; mail_calls := mail_calls w; drive_calls := drive_calls w |}.

Definition push_mail (m : Mail) (w : World) : World :=
  {| documents := documents w; users := users w; auto_increment := auto_increment w;
     otpStore := otpStore w; drive := drive w; uploads := uploads w;
     outbox := outbox w ++ [m]; console := console w; clock := clock w;
     tz_offset := tz_offset w; env := env w; oracle := oracle w;
     db_calls := db_calls w; mail_calls := S (mail_calls w); drive_calls := drive_calls w |}.

Definition push_console (line : string) (w : World) : World :=
  {| documents := documents w; users := users w; auto_increment := auto_increment w;
     otpStore := otpStore w; drive := drive w; uploads := uploads w;
     outbox := outbox w; console := console w ++ [line]; clock := clock w;
     tz_offset := tz_offset w; env := env w; oracle := oracle w;
     db_calls := db_calls w; mail_calls := mail_calls w; drive_calls := drive_calls w |}.

Definition bump_db (w : World) : World :=
  {| documents := documents w; users := users w; auto_increment := auto_increment w;
     otpStore := otpStore w; drive := drive w; uploads := uploads w;
     outbox := outbox w; console := console w; clock := clock w;
     tz_offset := tz_offset w; env := env w; oracle := oracle w;
     db_calls := S (db_calls w); mail_calls := mail_calls w; drive_calls := drive_calls w |}.

Definition bump_drive (w : World) : World :=
  {| documents := documents w; users := users w; auto_increment := auto_increment w;
     otpStore := otpStore w; drive := drive w; uploads := uploads w;
     outbox := outbox w; console := console w; clock := clock w;
     tz_offset := tz_offset w; env := env w; oracle := oracle w;
     db_calls := db_calls w; mail_calls := mail_calls w; drive_calls := S (drive_calls w) |}.

(** ** The monad of handlers: state and exceptions *)

Inductive Outcome (A : Type) :=
| Returned (a : A)
| Thrown (e : exn).
Arguments Returned {A} a.
Arguments Thrown {A} e.

Definition M (A : Type) : Type := World -> World * Outcome A.

Definition ret {A} (a : A) : M A := fun w => (w, Returned a).

Definition bind {A B} (m : M A) (k : A -> M B) : M B :=
  fun w =>
    match m w with
    | (w1, Returned a) => k a w1
    | (w1, Thrown e) => (w1, Thrown e)
    end.

Definition throw {A} (e : exn) : M A := fun w => (w, Thrown e).

(** [try { m } catch (err) { h err }] *)
Definition try_catch {A} (m : M A) (h : exn -> M A) : M A :=
  fun w =>
    match m w with
    | (w1, Returned a) => (w1, Returned a)
    | (w1, Thrown e) => h e w1
    end.

Definition gets {A} (f : World -> A) : M A := fun w => (w, Returned (f w)).

Definition modify (f : World -> World) : M unit := fun w => (f w, Returned tt).

#[global] Instance M_ret : MRet M := @ret.
#[global] Instance M_bind : MBind M := fun A B k m => bind m k.

(** ** The services *)

(** [console.log] and [console.error] both end up as a line on the console;
    several arguments are printed separated by a space. *)
Definition console_log (line : string) : M unit := modify (push_console line).

Definition show_exn (e : exn) : string := "Error: " +:+ message_of e.

(** [db.execute] and [db.query]: the statement runs against the tables unless
    the server rejects the call. *)
Definition db_execute {A} (stmt : World -> World * A) : M A :=
  fun w =>
    match db_fault (oracle w) (db_calls w) with
    | Some msg => (bump_db w, Thrown (JsError msg))
    | None => let '(w1, a) := stmt (bump_db w) in (w1, Returned a)
    end.

(** [transporter.sendMail] *)
Definition sendMail (m : Mail) : M unit :=
  fun w =>
    match mail_fault (oracle w) (mail_calls w) with
    | Some msg => (push_mail m w, Thrown (JsError msg))
    | None => (push_mail m w, Returned tt)
    end.

(** [new Date()] as an instant. *)
Definition new_Date : M Z := gets clock.

(** [new Date(new Date().toLocaleString("en-US", { timeZone: "Asia/Kolkata" }))]:
    the wall clock of Kolkata, to the second, read back as a local time of the
    server. *)
Definition ist_now (w : World) : Z :=
  1000 * (clock w / 1000) + 19800000 - tz_offset w.

Definition ist_Date : M Z := gets ist_now.

(** ** SQL statements

    Each statement of the source is a function on the tables.  A character
    column compares with [=] as equality of strings; [LIKE] follows MySQL's
    pattern language. *)

Module Sql.

(** The header mysql2 returns for an UPDATE.  mysql2 connects with the
    FOUND_ROWS flag, so [affectedRows] counts the rows the WHERE clause
    matched, changed or not. *)
Record ResultSetHeader := { affectedRows : Z }.

(** [pattern LIKE]: [%] matches any run of characters, [_] exactly one, and
    a backslash makes the character after it literal (a backslash that ends
    the pattern stands for itself). *)
Fixpoint like (pat : string) : string -> bool :=
  match pat with
  | EmptyString => fun s => match s with EmptyString => true | String _ _ => false end
  | String c pat' =>
    if Ascii.eqb c "%" then
      fix many (s : string) : bool :=
        like pat' s || match s with EmptyString => false | String _ s' => many s' end
    else if Ascii.eqb c "_" then
      fun s => match s with EmptyString => false | String _ s' => like pat' s' end
    else if Ascii.eqb c "\" then
      match pat' with
      | EmptyString =>
        fun s => match s with EmptyString => false | String b s' => Ascii.eqb b "\" && like pat' s' end
      | String e pat'' =>
        fun s => match s with EmptyString => false | String b s' => Ascii.eqb b e && like pat'' s' end
      end
    else
      fun s => match s with EmptyString => false | String b s' => Ascii.eqb b c && like pat' s' end
  end.

Definition with_id (key : Z) (d : Document) : bool := id d =? key.

(** The rows the review statement selects:
    [WHERE uploaded_by = ? AND approval_status = 'Approved']. *)
Definition reviewable (u : string) (d : Document) : bool :=
  String.eqb (uploaded_by d) u && String.eqb (approval_status d) "Approved".

Definition set_approval (st who : string) (t : Z) (d : Document) : Document :=
  {| id := id d; document_name := document_name d; document_link := document_link d;
     uploaded_by := uploaded_by d; upload_time := upload_time d;
     approval_status := st; approved_by := Some who; approval_time := Some t;
     review_status := review_status d; reviewer := reviewer d;
     review_time := review_time d |}.

Definition set_review (st who : string) (t : Z) (d : Document) : Document :=
  {| id := id d; document_name := document_name d; document_link := document_link d;
     uploaded_by := uploaded_by d; upload_time := upload_time d;
     approval_status := approval_status d; approved_by := approved_by d;
     approval_time := approval_time d;
     review_status := st; reviewer := Some who; review_time := Some t |}.

(** [UPDATE documents SET approval_status = ?, approved_by = ?,
    approval_time = ? WHERE id = ?] *)
Definition update_approval (st who : string) (t key : Z) (w : World)
  : World * ResultSetHeader :=
  (set_documents
     (map (fun d => if with_id key d then set_approval st who t d else d) (documents w)) w,
   {| affectedRows := Z.of_nat (List.length (List.filter (with_id key) (documents w))) |}).

(** [UPDATE documents SET review_status = ?, reviewer = ?, review_time = ?
    WHERE uploaded_by = ? AND approval_status = 'Approved'] *)
Definition update_review (st who : string) (t : Z) (u : string) (w : World)
  : World * ResultSetHeader :=
  (set_documents
     (map (fun d => if reviewable u d then set_review st who t d else d) (documents w)) w,
   {| affectedRows := Z.of_nat (List.length (List.filter (reviewable u) (documents w))) |}).

(** [SELECT * FROM documents WHERE id = ?] *)
Definition select_by_id (key : Z) (w : World) : World * list Document :=
  (w, List.filter (with_id key) (documents w)).

(** [SELECT * FROM documents] *)
Definition select_all (w : World) : World * list Document :=
  (w, documents w).

(** [SELECT * FROM documents WHERE uploaded_by = ?] *)
Definition select_uploaded_by (u : string) (w : World) : World * list Document :=
  (w, List.filter (fun d => String.eqb (uploaded_by d) u) (documents w)).

(** [SELECT * FROM documents WHERE uploaded_by LIKE ?] *)
Definition select_uploaded_by_like (pat : string) (w : World) : World * list Document :=
  (w, List.filter (fun d => like pat (uploaded_by d)) (documents w)).

(** [SELECT email FROM users WHERE username = ?] *)
Definition select_email (u : string) (w : World) : World * list User :=
  (w, List.filter (fun r => String.eqb (username r) u) (users w)).

(** [INSERT INTO documents (document_name, document_link, uploaded_by,
    upload_time, approval_status, review_status) VALUES (?, ?, ?, ?, ?, ?)];
    the key comes from the table's counter and the other columns are NULL. *)
Definition insert_document (name link who : string) (t : Z) (ast rst : string)
    (w : World) : World * ResultSetHeader :=
  (set_auto_increment (auto_increment w + 1)
     (set_documents
        (documents w ++
         [{| id := auto_increment w; document_name := name; document_link := Some link;
             uploaded_by := who; upload_time := Some t;
             approval_status := ast; approved_by := None; approval_time := None;
             review_status := rst; reviewer := None; review_time := None |}]) w),
   {| affectedRows := 1 |}).

End Sql.

(** ** Google Drive and the local disk *)

Definition read_local (path : string) (w : World) : option string :=
  bytes <$> List.find (fun f => String.eqb (local_path f) path) (uploads w).

(** [driveService.files.create], fed by [fs.createReadStream(localPath)];
    resolves to the identifier Drive gave the file. *)
Definition drive_files_create (name : string) (folder : list (option string))
    (mime localPath : string) : M string :=
  fun w =>
    match drive_fault (oracle w) (drive_calls w), read_local localPath w with
    | Some msg, _ => (bump_drive w, Thrown (JsError msg))
    | None, None => (bump_drive w, Thrown (JsError "ENOENT: no such file or directory"))
    | None, Some content =>
      let fid := drive_file_id (oracle w) (drive_calls w) in
      (set_drive (drive w ++
                  [{| file_id := fid; drive_name := name; parents := folder;
                      mimeType := mime; media := content; anyone_reader := false |}])
                 (bump_drive w),
       Returned fid)
    end.

Definition make_public (fid : string) (f : DriveFile) : DriveFile :=
  if String.eqb (file_id f) fid then
    {| file_id := file_id f; drive_name := drive_name f; parents := parents f;
       mimeType := mimeType f; media := media f; anyone_reader := true |}
  else f.

(** [driveService.permissions.create] with role reader, type anyone. *)
Definition drive_permissions_create (fid : string) : M unit :=
  fun w =>
    match drive_fault (oracle w) (drive_calls w) with
    | Some msg => (bump_drive w, Thrown (JsError msg))
    | None => (set_drive (map (make_public fid) (drive w)) (bump_drive w), Returned tt)
    end.

(** [fs.unlinkSync] *)
Definition fs_unlinkSync (path : string) : M unit :=
  fun w =>
    match read_local path w with
    | None => (w, Thrown (JsError "ENOENT: no such file or directory"))
    | Some _ =>
      (set_uploads (List.filter (fun f => negb (String.eqb (local_path f) path)) (uploads w)) w,
       Returned tt)
    end.

(** ** Notifications *)

Definition nl : string := String "010"%char EmptyString.

(** A multi-line template literal, one entry per source line. *)
Definition lines (l : list string) : string := String.concat nl l.

(** [`${x}`] of a value that may be [undefined]. *)
Definition interpolate (x : option string) : string :=
  match x with Some s => s | None => "undefined" end.

(** Notice of a new upload, to the approver. Never throws. *)
Definition sendEmailNotification (documentName uploadedBy documentLink : string) : M unit :=
  sender ← gets (fun w => EMAIL_USER (env w));
  approver ← gets (fun w => APPROVER_EMAIL (env w));
  let mailOptions :=
    {| from := sender;
       to := [approver];
       subject := "📄 New Document Uploaded for Review";
       html := lines [
         EmptyString;
         "      <h3>A new document has been uploaded.</h3>";
         "      <p><strong>Uploaded By:</strong> " +:+ uploadedBy +:+ "</p>";
         "      <p><strong>Document:</strong> " +:+ documentName +:+ "</p>";
         "      <p><strong>Link:</strong> <a href=" +:+ Str.dquote +:+ documentLink
           +:+ Str.dquote +:+ ">Download PDF</a></p>";
         "    " ] |} in
  try_catch
    (sendMail mailOptions;;
     console_log "✅ Email sent to approver.")
    (fun err => console_log ("❌ Failed to send email: " +:+ message_of err)).

(** Resolves to the address of the user, or to [null] when there is none or
    the query fails. Never throws. *)
Definition getUserEmailByUsername (name : string) : M (option string) :=
  try_catch
    (rows ← db_execute (Sql.select_email name);
     mret (match rows with r :: _ => Some (email r) | [] => None end))
    (fun err =>
       console_log ("Error fetching sender email: " +:+ message_of err);;
       mret None).

(** The three templates of the approval notice, chosen by [recipientRole]. *)
Definition approval_subject (documentName status : string) (recipientRole : option string)
  : string :=
  match recipientRole with
  | Some "sender" =>
    "✅ Your document " +:+ Str.dquote +:+ documentName +:+ Str.dquote +:+ " has been approved"
  | Some "reviewer" =>
    "📄 New Document " +:+ Str.dquote +:+ documentName +:+ Str.dquote +:+ " Needs Your Review"
  | _ =>
    "📄 Document " +:+ Str.dquote +:+ documentName +:+ Str.dquote +:+ " Status: " +:+ status
  end.

Definition approval_html (documentName uploadedBy status : string)
    (recipientRole : option string) : string :=
  match recipientRole with
  | Some "sender" =>
    lines [
      EmptyString;
      "      <h3>Good news!</h3>";
      "      <p>Your document <strong>" +:+ documentName +:+ "</strong> uploaded by <strong>"
        +:+ uploadedBy +:+ "</strong> has been approved by the approver.</p>";
      "      <p>It will now be reviewed by the reviewer.</p>";
      "    " ]
  | Some "reviewer" =>
    lines [
      EmptyString;
      "      <h3>Document Ready for Review</h3>";
      "      <p>A new document <strong>" +:+ documentName +:+ "</strong> uploaded by <strong>"
        +:+ uploadedBy +:+ "</strong> has been approved and is ready for your review.</p>";
      "      <p>Please log in to the system and take necessary action.</p>";
      "    " ]
  | _ =>
    lines [
      EmptyString;
      "      <h3>Document Status Update</h3>";
      "      <p><strong>" +:+ documentName +:+ "</strong> uploaded by <strong>" +:+ uploadedBy
        +:+ "</strong> is now marked as: <strong>" +:+ status +:+ "</strong>.</p>";
      "    " ]
  end.

Definition approval_mail (sender : option string) (toEmails : list (option string))
    (documentName uploadedBy status : string) (recipientRole : option string) : Mail :=
  {| from := sender;
     to := toEmails;
     subject := approval_subject documentName status recipientRole;
     html := approval_html documentName uploadedBy status recipientRole |}.

(** Notice of an approval decision. Never throws. *)
Definition sendApprovalNotification (toEmails : list (option string))
    (documentName uploadedBy status : string) (recipientRole : option string) : M unit :=
  sender ← gets (fun w => EMAIL_USER (env w));
  let mailOptions := approval_mail sender toEmails documentName uploadedBy status recipientRole in
  try_catch
    (sendMail mailOptions;;
     console_log ("✅ Email sent to " +:+ interpolate recipientRole +:+ ": "
                  +:+ String.concat "," (map interpolate toEmails)))
    (fun error =>
       console_log ("❌ Failed to send email to " +:+ interpolate recipientRole +:+ ": "
                    +:+ message_of error)).

(** The legacy wrapper: [callback(null, results)] is [inr results],
    [callback(err, null)] is [inl err]. *)
Definition queryWithCallback {A R} (stmt : World -> World * A)
    (callback : exn + A -> M R) : M R :=
  try_catch
    (results ← db_execute stmt;
     callback (inr results))
    (fun err => callback (inl err)).

(** ** The one-time-passcode store *)

(** A field of a JSON request body: absent, [null], a boolean or a string
    (numbers, arrays and objects are left out of the model). *)
Inductive JsonValue :=
| JUndefined
| JNull
| JBool (b : bool)
| JString (s : string).

(** What reading a property of [otpStore] yields: nothing, a stored code, or
    a member of [Object.prototype], which the object literal inherits. *)
Inductive PropValue :=
| PUndefined
| PCode (otp : string)
| PInherited (key : string).

Definition object_prototype_keys : list string :=
  [ "constructor"; "__defineGetter__"; "__defineSetter__"; "hasOwnProperty";
    "__lookupGetter__"; "__lookupSetter__"; "isPrototypeOf"; "propertyIsEnumerable";
    "toString"; "valueOf"; "__proto__"; "toLocaleString" ].

Definition to_property_key (v : JsonValue) : string :=
  match v with
  | JUndefined => "undefined"
  | JNull => "null"
  | JBool true => "true"
  | JBool false => "false"
  | JString s => s
  end.

(** [otpStore[key]] *)
Definition get_property (store : gmap string string) (key : string) : PropValue :=
  if String.eqb key "__proto__" then PInherited key
  else
    match store !! key with
    | Some otp => PCode otp
    | None =>
      if existsb (String.eqb key) object_prototype_keys then PInherited key else PUndefined
    end.

(** [enteredOtp === validOtp] *)
Definition strict_equal (entered : JsonValue) (valid : PropValue) : bool :=
  match entered, valid with
  | JUndefined, PUndefined => true
  | JString a, PCode b => String.eqb a b
  | _, _ => false
  end.

(** [POST /verify-otp] *)
Definition post_verify_otp (email_ enteredOtp : JsonValue) : M Response :=
  validOtp ← gets (fun w => get_property (otpStore w) (to_property_key email_));
  if strict_equal enteredOtp validOtp then
    modify (fun w => set_otpStore (delete (to_property_key email_) (otpStore w)) w);;
    mret (json 200 (Message "OTP verified successfully"))
  else
    mret (json 400 (Message "Invalid OTP")).

(** ** Query views *)

Definition rows_or_500 (outcome : exn + list Document) : M Response :=
  match outcome with
  | inl err => mret (json 500 (SentError err))
  | inr results => mret (json 200 (Rows results))
  end.

(** [GET /api/document?uploaded_by=] (legacy) *)
Definition get_api_document (uploader : option string) : M Response :=
  match uploader with
  | Some u =>
    if Str.truthy u then
      queryWithCallback (Sql.select_uploaded_by_like ("%" +:+ u +:+ "%")) rows_or_500
    else queryWithCallback Sql.select_all rows_or_500
  | None => queryWithCallback Sql.select_all rows_or_500
  end.

(** [GET /documents?uploadedBy=] (modern) *)
Definition get_documents (uploadedBy : option string) : M Response :=
  let stmt :=
    match uploadedBy with
    | Some u => if Str.truthy u then Sql.select_uploaded_by u else Sql.select_all
    | None => Sql.select_all
    end in
  try_catch
    (rows ← db_execute stmt;
     mret (json 200 (Rows rows)))
    (fun err => mret (json 500 (ErrorBody "Error fetching documents"))).

(** ** Upload *)

Record UploadRequest := {
  originalname : string;     (* the name the client gave the file *)
  content : string;          (* its bytes *)
  uploadedBy : string        (* the form field *)
}.

(** What multer puts in [req.file]. *)
Record MulterFile := {
  file_originalname : string;
  file_path : string
}.

(** [fileFilter]: [None] is [cb(null, true)], [Some err] is [cb(err, false)]. *)
Definition fileFilter (file_name : string) : option exn :=
  if String.eqb (Str.toLowerCase (Path.extname file_name)) ".pdf" then None
  else Some (JsError "Only PDF files are allowed").

(** The handler proper of [POST /upload], run once multer accepted the file. *)
Definition upload_handler (who : string) (file : MulterFile) : M Response :=
  let documentName := file_originalname file in
  let localPath := file_path file in
  try_catch
    (now ← new_Date;
     folder ← gets (fun w => SHAREDDRIVE (env w));
     driveId ← drive_files_create (pretty now +:+ "-" +:+ documentName) [folder]
                 "application/pdf" localPath;
     drive_permissions_create driveId;;
     let documentLink := "https://drive.google.com/uc?id=" +:+ driveId in
     istDate1 ← ist_Date;
     db_execute (Sql.insert_document documentName documentLink who istDate1
                   "Pending" "Pending");;
     sendEmailNotification documentName who documentLink;;
     fs_unlinkSync localPath;;
     mret (json 200 (SuccessMessage "Document uploaded to Google Drive and saved")))
    (fun err =>
       console_log ("upload error: " +:+ show_exn err);;
       mret (json 500 (ErrorDetail "Document upload failed" (message_of err)))).

(** multer's disk storage writes through [fs.createWriteStream], which
    replaces a file that is already at the path. *)
Definition write_local (path data : string) (fs : list LocalFile) : list LocalFile :=
  List.filter (fun f => negb (String.eqb (local_path f) path)) fs ++
  [{| local_path := path; bytes := data |}].
Arguments write_local : simpl never.

(** [upload.single("file")]: the filter runs first. A refused file goes to
    [next(err)]: nothing is written, and Express's own error handler prints
    the error on the console (its stack, of which the model keeps the first
    line) and answers 500. An accepted file is written under [uploads/]
    before the handler runs. *)
Definition post_upload (req : UploadRequest) : M Response :=
  match fileFilter (originalname req) with
  | Some err =>
    console_log (show_exn err);;
    mret (json 500 (DefaultErrorPage err))
  | None =>
    now ← new_Date;
    let path := "uploads/" +:+ pretty now +:+ "-" +:+ originalname req in
    modify (fun w => set_uploads (write_local path (content req) (uploads w)) w);;
    upload_handler (uploadedBy req)
      {| file_originalname := originalname req; file_path := path |}
  end.

(** ** Approval *)

(** [PUT /api/approve/:id]; [key] is the path parameter as the number the
    database reads it as when it compares it with the key column. *)
Definition put_api_approve (key : Z) (decision approver : string) : M Response :=
  istDate ← ist_Date;
  try_catch
    (result ← db_execute (Sql.update_approval decision approver istDate key);
     if Sql.affectedRows result =? 0 then
       mret (json 404 (Message "Document not found"))
     else
       docRows ← db_execute (Sql.select_by_id key);
       match docRows with
       | [] => mret (json 404 (Message "Document not found after update"))
       | doc :: _ =>
         senderEmail ← getUserEmailByUsername (uploaded_by doc);
         reviewerEmail ← gets (fun w => REVIEWER_EMAIL (env w));
         (if String.eqb decision "Approved" then
            sendApprovalNotification [senderEmail] (document_name doc) (uploaded_by doc)
              "Approved" (Some "sender");;
            sendApprovalNotification [reviewerEmail] (document_name doc) (uploaded_by doc)
              "Pending Review" (Some "reviewer")
          else
            sendApprovalNotification [senderEmail] (document_name doc) (uploaded_by doc)
              "Unapproved" None);;
         mret (json 200 (Message "Approval status updated and notification sent"))
       end)
    (fun err =>
       console_log ("Error updating approval status: " +:+ show_exn err);;
       mret (json 500 (ErrorBody "Internal server error"))).

(** ** Review *)

Definition review_mail (sender : option string) (recipients : list (option string))
    (who decision reviewed_by : string) : Mail :=
  {| from := sender;
     to := recipients;
     subject := if String.eqb decision "Approved"
                then "✅ Document Reviewed & Approved"
                else "❌ Document Reviewed & Rejected";
     html := lines [
       EmptyString;
       "      <h3>Document reviewed by: " +:+ reviewed_by +:+ "</h3>";
       "      <p><strong>Status:</strong> " +:+ decision +:+ "</p>";
       "      <p><strong>Uploaded By:</strong> " +:+ who +:+ "</p>";
       "    " ] |}.

(** [PUT /api/review] *)
Definition put_api_review (who decision reviewed_by : string) : M Response :=
  time ← new_Date;
  try_catch
    (db_execute (Sql.update_review decision reviewed_by time who);;
     senderEmail ← getUserEmailByUsername who;
     approverEmail ← gets (fun w => APPROVER_EMAIL (env w));
     sender ← gets (fun w => EMAIL_USER (env w));
     sendMail (review_mail sender [senderEmail; approverEmail] who decision reviewed_by);;
     mret (json 200 (Message "Review status updated and notification sent.")))
    (fun err =>
       console_log ("DB Error: " +:+ show_exn err);;
       mret (json 500 (ErrorBody "Failed to update review status."))).

(** ** Vocabulary of the statements *)

(** The address [getUserEmailByUsername] resolves a user name to. *)
Definition lookup_email (name : string) (us : list User) : option string :=
  match List.filter (fun r => String.eqb (username r) name) us with
  | r :: _ => Some (email r)
  | [] => None
  end.

(** The address the approval handler ends up with for the uploader when its
    lookup is database call number [call]: [null] if that call is rejected. *)
Definition sender_address (w : World) (call : nat) (name : string) : option string :=
  match db_fault (oracle w) call with
  | Some _ => None
  | None => lookup_email name (users w)
  end.

(** The persistent state outside the [documents] table. *)
Definition elsewhere (w : World) :=
  (users w, auto_increment w, otpStore w, drive w, uploads w).

(** [k] occurs in [s]: the specification's "contains that key as a
    substring". *)
Definition contains (s k : string) : Prop :=
  exists l r : string, s = l +:+ k +:+ r.

(** The characters [LIKE] reads as an instruction rather than as themselves. *)
Definition like_special (c : ascii) : bool :=
  Ascii.eqb c "%" || Ascii.eqb c "_" || Ascii.eqb c "\".

(** A key without any of them. *)
Fixpoint like_plain (k : string) : bool :=
  match k with
  | EmptyString => true
  | String c k' => negb (like_special c) && like_plain k'
  end.

(** The row the upload inserts. *)
Definition uploaded_row (req : UploadRequest) (w : World) : Document :=
  {| id := auto_increment w;
     document_name := originalname req;
     document_link :=
       Some ("https://drive.google.com/uc?id=" +:+ drive_file_id (oracle w) (drive_calls w));
     uploaded_by := uploadedBy req;
     upload_time := Some (ist_now w);
     approval_status := "Pending"; approved_by := None; approval_time := None;
     review_status := "Pending"; reviewer := None; review_time := None |}.

(** An Approved row of the uploader: what the review statement selects. *)
Definition approved_row_of (who : string) (d : Document) : Prop :=
  uploaded_by d = who /\ approval_status d = "Approved".

(** The world a computation ends in, and what it returned. *)
Definition final {A} (m : M A) (w : World) : World := fst (m w).
Definition result {A} (m : M A) (w : World) : Outcome A := snd (m w).

(** ** A small world to run the handlers in *)

Module Sample.

Definition doc (i : Z) (name who ast rst : string) (rv : option string) (rt : option Z)
  : Document :=
  {| id := i; document_name := name; document_link := Some "https://drive.google.com/uc?id=f";
     uploaded_by := who; upload_time := Some 1700000000000;
     approval_status := ast; approved_by := None; approval_time := None;
     review_status := rst; reviewer := rv; review_time := rt |}.

Definition alice_approved : Document :=
  doc 1 "contract.pdf" "alice" "Approved" "Rejected" (Some "dave") (Some 1700000001000).
Definition alice_pending : Document :=
  doc 2 "draft.pdf" "alice" "Pending" "Pending" None None.
Definition abc_pending : Document :=
  doc 3 "note.pdf" "abc" "Pending" "Pending" None None.

Definition settings : Env :=
  {| EMAIL_USER := Some "noreply@example.com";
     APPROVER_EMAIL := Some "approver@example.com";
     REVIEWER_EMAIL := Some "reviewer@example.com";
     SHAREDDRIVE := Some "folder" |}.

(** Every service answers. *)
Definition calm : Oracle :=
  {| db_fault := fun _ => None; mail_fault := fun _ => None;
     drive_fault := fun _ => None; drive_file_id := fun n => "file" +:+ pretty n |}.

(** The mail transport is down; the rest answers. *)
Definition mail_down : Oracle :=
  {| db_fault := fun _ => None; mail_fault := fun _ => Some "connect ETIMEDOUT";
     drive_fault := fun _ => None; drive_file_id := fun n => "file" +:+ pretty n |}.

Definition world (o : Oracle) : World :=
  {| documents := [alice_approved; alice_pending; abc_pending];
     users := [{| username := "alice"; email := "alice@example.com" |}];
     auto_increment := 4;
     otpStore := {[ "alice@example.com" := "123456" ]};
     drive := []; uploads := []; outbox := []; console := [];
     clock := 1700000002123; tz_offset := 0;
     env := settings; oracle := o;
     db_calls := 0; mail_calls := 0; drive_calls := 0 |}.

Definition pdf_upload : UploadRequest :=
  {| originalname := "Report.PDF"; content := "%PDF-1.7"; uploadedBy := "alice" |}.

Definition text_upload : UploadRequest :=
  {| originalname := "notes.txt"; content := "hello"; uploadedBy := "alice" |}.

End Sample.

(** ** The routes the workflow shares the server with *)

(** A field of the request that is absent or a string, in a condition. *)
Definition js_truthy (x : option string) : bool :=
  match x with
  | Some s => Str.truthy s
  | None => false
  end.

(** [otpStore[key] = otp]: an own property, except under ["__proto__"], where
    the inherited setter drops a value that is not an object. *)
Definition set_property (store : gmap string string) (key otp : string)
  : gmap string string :=
  if String.eqb key "__proto__" then store else <[key := otp]> store.

(** [SELECT * FROM users WHERE username = ? AND email = ?] *)
Definition select_user_with_email (name addr : string) (w : World) : World * list User :=
  (w, List.filter (fun r => String.eqb (username r) name && String.eqb (email r) addr)
        (users w)).

(** The passcode message. Its body is the [text] property, which the one
    body field of the record carries here. *)
Definition otp_mail (sender : option string) (addr otp : string) : Mail :=
  {| from := sender;
     to := [Some addr];
     subject := "Your OTP Code";
     html := "Your OTP is: " +:+ otp |}.

(** [POST /send-otp]. [otp] is the string [generateOtp()] returns in this
    request: [Math.random] is read outside the model. [name] and [addr] are
    the fields [username] and [email] of the body. *)
Definition post_send_otp (otp : string) (name addr : option string) : M Response :=
  try_catch
    (mismatch ←
       (if js_truthy name && js_truthy addr then
          rows ← db_execute (select_user_with_email (default EmptyString name)
                               (default EmptyString addr));
          mret (match rows with [] => true | _ :: _ => false end)
        else mret false);
     if (mismatch : bool) then
       mret (json 400 (Message "Username and email do not match"))
     else if negb (js_truthy addr) then
       mret (json 400 (Message "Email is required"))
     else
       let key := default EmptyString addr in
       modify (fun w => set_otpStore (set_property (otpStore w) key otp) w);;
       sender ← gets (fun w => EMAIL_USER (env w));
       sendMail (otp_mail sender key otp);;
       console_log ("✅ OTP sent to " +:+ key +:+ ": " +:+ otp);;
       mret (json 200 (Message "OTP sent successfully")))
    (fun err =>
       console_log ("❌ Error in send-otp route: " +:+ message_of err);;
       mret (json 500 (Message "Failed to send OTP"))).

(** [ORDER BY id DESC]: insertion into a list already in that order. *)
Fixpoint insert_desc (d : Document) (l : list Document) : list Document :=
  match l with
  | [] => [d]
  | x :: l' => if id x <? id d then d :: l else x :: insert_desc d l'
  end.

Fixpoint order_by_id_desc (l : list Document) : list Document :=
  match l with
  | [] => []
  | d :: l' => insert_desc d (order_by_id_desc l')
  end.

(** [SELECT * FROM documents ORDER BY id DESC] *)
Definition select_all_desc (w : World) : World * list Document :=
  (w, order_by_id_desc (documents w)).

(** [SELECT * FROM documents WHERE approval_status = 'Approved' ORDER BY id DESC] *)
Definition select_approved_desc (w : World) : World * list Document :=
  (w, order_by_id_desc
        (List.filter (fun d => String.eqb (approval_status d) "Approved") (documents w))).

(** [GET /api/documents] (legacy) *)
Definition get_api_documents : M Response :=
  queryWithCallback select_all_desc rows_or_500.

(** [GET /api/approved-documents] *)
Definition get_api_approved_documents : M Response :=
  try_catch
    (rows ← db_execute select_approved_desc;
     mret (json 200 (Rows rows)))
    (fun err => mret (json 500 (ErrorBody "Failed to fetch approved documents"))).

(** ** The router *)

(** A request to one of the routes above, with what the handler reads of it.
    The fields of a JSON body are the strings a client sends; a body whose
    [approved_by] or [reviewer] is null, which the handlers would bind as SQL
    NULL, is not among these requests. *)
Inductive Request :=
| POST_send_otp (otp : string) (name addr : option string)
| POST_verify_otp (addr entered : JsonValue)
| GET_api_documents
| GET_api_document (uploader : option string)
| POST_upload (req : UploadRequest)
| GET_documents (uploader : option string)
| PUT_api_approve (key : Z) (decision approver : string)
| GET_api_approved_documents
| PUT_api_review (who decision reviewed_by : string).

Definition route (r : Request) : M Response :=
  match r with
  | POST_send_otp otp name addr => post_send_otp otp name addr
  | POST_verify_otp addr entered => post_verify_otp addr entered
  | GET_api_documents => get_api_documents
  | GET_api_document uploader => get_api_document uploader
  | POST_upload req => post_upload req
  | GET_documents uploader => get_documents uploader
  | PUT_api_approve key decision approver => put_api_approve key decision approver
  | GET_api_approved_documents => get_api_approved_documents
  | PUT_api_review who decision reviewed_by => put_api_review who decision reviewed_by
  end.

(** The world when the clock shows [t]. *)
Definition at_time (t : Z) (w : World) : World :=
  {| documents := documents w; users := users w; auto_increment := auto_increment w;
     otpStore := otpStore w; drive := drive w; uploads := uploads w;
     outbox := outbox w; console := console w; clock := t;
     tz_offset := tz_offset w; env := env w; oracle := oracle w;
     db_calls := db_calls w; mail_calls := mail_calls w; drive_calls := drive_calls w |}.

(** A run of the server: requests served one after the other, each at its
    own time. *)
Fixpoint serve (rs : list (Z * Request)) (w : World) : World :=
  match rs with
  | [] => w
  | (t, r) :: rs' => serve rs' (final (route r) (at_time t w))
  end.

(** ** Vocabulary of the further statements *)

(** The columns no statement of the server assigns after the INSERT. *)
Definition identity_columns (d : Document) :=
  (id d, document_name d, document_link d, uploaded_by d, upload_time d).

Definition approval_columns (d : Document) :=
  (approval_status d, approved_by d, approval_time d).

Definition review_columns (d : Document) :=
  (review_status d, reviewer d, review_time d).

(** Keys are distinct and below the counter that hands out the next one. *)
Definition keys_fresh (w : World) : Prop :=
  NoDup (map id (documents w)) /\
  Forall (fun d => id d < auto_increment w) (documents w).

(** What holds of every row the server itself produced. Only the times are
    consulted for whether a row was approved or reviewed: the server writes
    them itself, whatever the request names as approver or reviewer. *)
Definition row_consistent (d : Document) : Prop :=
  document_link d <> None /\
  upload_time d <> None /\
  (approval_time d = None -> approval_status d = "Pending" /\ approved_by d = None) /\
  (review_time d = None -> review_status d = "Pending" /\ reviewer d = None) /\
  (review_time d <> None -> approval_time d <> None).

(** The order of [ORDER BY id DESC]: [a] may come before [b]. *)
Definition newest_first (a b : Document) : Prop := id b <= id a.

(** The path multer gives the file of an upload. *)
Definition temp_path (req : UploadRequest) (w : World) : string :=
  "uploads/" +:+ pretty (clock w) +:+ "-" +:+ originalname req.

(** The file the upload creates in Drive. *)
Definition drive_file_of (req : UploadRequest) (w : World) : DriveFile :=
  {| file_id := drive_file_id (oracle w) (drive_calls w);
     drive_name := pretty (clock w) +:+ "-" +:+ originalname req;
     parents := [SHAREDDRIVE (env w)];
     mimeType := "application/pdf";
     media := content req;
     anyone_reader := false |}.

(** The characters of a string. *)
Fixpoint chars (s : string) : list ascii :=
  match s with
  | EmptyString => []
  | String c s' => c :: chars s'
  end.

(** A key in which no character is the backslash, the escape of [LIKE]. *)
Fixpoint no_backslash (k : string) : bool :=
  match k with
  | EmptyString => true
  | String c k' => negb (Ascii.eqb c "\") && no_backslash k'
  end.

(** ** Vocabulary for the scan of [path.extname] *)

(** A character that is neither the dot nor the separator. *)
Definition plain_char (c : ascii) : Prop := c <> "."%char /\ c <> "/"%char.

Definition slash (c : ascii) : Prop := c = "/"%char.

(** The state of the scan while the extension is being read: no dot yet,
    the end of the last component found at [e]. *)
Definition reading (e : Z) : Path.Scan :=
  {| Path.startDot := -1; Path.startPart := 0; Path.end_ := e;
     Path.matchedSlash := false; Path.preDotState := 0 |}.

(** The state once the dot was found at [j]. *)
Definition past_dot (j e p : Z) : Path.Scan :=
  {| Path.startDot := j; Path.startPart := 0; Path.end_ := e;
     Path.matchedSlash := false; Path.preDotState := p |}.

(** What is known of the state when the characters [suf] at the right have
    been read and the characters [l] (last first) remain. *)
Definition scanned (st : Path.Scan) (l suf : list ascii) : Prop :=
  (Path.end_ st = -1 ->
   Forall slash suf /\ Path.startDot st = -1 /\ Path.matchedSlash st = true) /\
  (Path.end_ st <> -1 ->
   Path.matchedSlash st = false /\
   exists body tail,
     suf = body ++ tail /\ Forall slash tail /\
     Path.end_ st = Z.of_nat (List.length l) + Z.of_nat (List.length body) /\
     (Path.startDot st <> -1 ->
      Z.of_nat (List.length l) <= Path.startDot st < Path.end_ st)).

(** What is known of the state the scan ends in, [full] being the whole
    path. *)
Definition settled (st : Path.Scan) (full : list ascii) : Prop :=
  Path.end_ st <> -1 ->
  exists head tail,
    full = head ++ tail /\ Forall slash tail /\
    Path.end_ st = Z.of_nat (List.length head) /\
    (Path.startDot st <> -1 -> 0 <= Path.startDot st < Path.end_ st).

(** ** Worlds in which a service is out *)

Module Outage.

(** Drive rejects every call. *)
Definition drive_down : Oracle :=
  {| db_fault := fun _ => None; mail_fault := fun _ => None;
     drive_fault := fun _ => Some "The user's Drive storage quota has been exceeded.";
     drive_file_id := fun n => "file" +:+ pretty n |}.

(** The database answers its first [n] calls and rejects the rest. *)
Definition db_lost_after (n : nat) : Oracle :=
  {| db_fault := fun k => if (n <=? k)%nat then Some "Connection lost" else None;
     mail_fault := fun _ => None;
     drive_fault := fun _ => None;
     drive_file_id := fun k => "file" +:+ pretty k |}.

End Outage.

(** ** A table with a history *)

Module Archive.

(** Approved by bob, then reviewed by carol. *)
Definition reviewed : Document :=
  {| id := 1; document_name := "contract.pdf";
     document_link := Some "https://drive.google.com/uc?id=f1";
     uploaded_by := "alice"; upload_time := Some 1700019800000;
     approval_status := "Approved"; approved_by := Some "bob";
     approval_time := Some 1700019801000;
     review_status := "Approved"; reviewer := Some "carol";
     review_time := Some 1700000001500 |}.

(** Approved by a request that named no approver; not reviewed yet. *)
Definition unsigned : Document :=
  {| id := 2; document_name := "draft.pdf";
     document_link := Some "https://drive.google.com/uc?id=f2";
     uploaded_by := "alice"; upload_time := Some 1700019800000;
     approval_status := "Approved"; approved_by := None;
     approval_time := Some 1700019801000;
     review_status := "Pending"; reviewer := None; review_time := None |}.

(** As uploaded. *)
Definition waiting : Document :=
  {| id := 3; document_name := "note.pdf";
     document_link := Some "https://drive.google.com/uc?id=f3";
     uploaded_by := "abc"; upload_time := Some 1700019800000;
     approval_status := "Pending"; approved_by := None; approval_time := None;
     review_status := "Pending"; reviewer := None; review_time := None |}.

Definition world : World :=
  set_documents [reviewed; unsigned; waiting] (Sample.world Sample.calm).

End Archive.

(** ** The library functions on a few inputs *)

Example extname_examples :
  Path.extname "Report.PDF" = ".PDF" /\
  Path.extname "archive.tar.gz" = ".gz" /\
  Path.extname ".pdf" = EmptyString /\
  Path.extname "..pdf" = ".pdf" /\
  Path.extname "scan.pdf/" = ".pdf" /\
  Path.extname "dir.pdf/scan" = EmptyString /\
  Path.extname "scan." = ".".
Proof. vm_compute. repeat split. Qed.

Example fileFilter_examples :
  fileFilter "Report.PDF" = None /\
  fileFilter "report.pdf.exe" = Some (JsError "Only PDF files are allowed") /\
  fileFilter ".pdf" = Some (JsError "Only PDF files are allowed").
Proof. vm_compute. repeat split. Qed.

Example like_examples :
  Sql.like "%li%" "alice" = true /\
  Sql.like "%a_c%" "abc" = true /\
  Sql.like "%a\_c%" "abc" = false /\
  Sql.like "%a\_c%" "xa_c" = true /\
  Sql.like "%50\%" "50%" = true /\
  Sql.like "%50\%" "50" = false /\
  Sql.like "%%%" EmptyString = true.
Proof. vm_compute. repeat split. Qed.

(** ** Lists of rows *)

Section Rows.

Context {A : Type} (p : A -> bool) (f : A -> A).

Lemma find_head_filter (l : list A) : List.find p l = head (List.filter p l).
Proof.
  induction l as [|a l IH]; simpl; [reflexivity|].
  destruct (p a); simpl; auto.
Qed.

Lemma filter_nil_find (l : list A) : List.filter p l = [] <-> List.find p l = None.
Proof.
  rewrite find_head_filter. destruct (List.filter p l); simpl; split; congruence.
Qed.

(** An update that keeps the key of every row it touches selects the same
    rows afterwards. *)
Lemma filter_update (l : list A) :
  (forall a, p (f a) = p a) ->
  List.filter p (map (fun a => if p a then f a else a) l) = map f (List.filter p l).
Proof.
  intros Hkey. induction l as [|a l IH]; simpl; [reflexivity|].
  destruct (p a) eqn:Ha; simpl.
  - rewrite Hkey, Ha. simpl. now rewrite IH.
  - rewrite Ha. exact IH.
Qed.

(** An update that selects no row changes none. *)
Lemma update_none (l : list A) :
  List.filter p l = [] -> map (fun a => if p a then f a else a) l = l.
Proof.
  induction l as [|a l IH]; simpl; [reflexivity|].
  destruct (p a) eqn:Ha; [discriminate|].
  intros H. now rewrite IH.
Qed.

Lemma update_lookup (l : list A) (i : nat) (a : A) :
  l !! i = Some a ->
  map (fun a => if p a then f a else a) l !! i = Some (if p a then f a else a).
Proof.
  intros H. change (map ?g l) with (g <$> l). rewrite list_lookup_fmap, H. reflexivity.
Qed.

End Rows.

(** ** How the notification functions run *)

Ltac unfold_monad :=
  unfold console_log, new_Date, ist_Date;
  unfold mbind, M_bind, bind, mret, M_ret, ret, try_catch, gets, modify, throw.

(** The approval notice hands exactly one message to the transporter, logs
    one line, and returns, whatever the transporter answers. *)
Lemma sendApprovalNotification_run toEmails documentName who st role (w : World) :
  exists line,
    sendApprovalNotification toEmails documentName who st role w =
    (push_console line
       (push_mail (approval_mail (EMAIL_USER (env w)) toEmails documentName who st role) w),
     Returned tt).
Proof.
  unfold sendApprovalNotification, sendMail. unfold_monad.
  destruct (mail_fault (oracle w) (mail_calls w)); eexists; reflexivity.
Qed.

(** So does the upload notice. *)
Lemma sendEmailNotification_run documentName who link (w : World) :
  exists line m,
    sendEmailNotification documentName who link w =
    (push_console line (push_mail m w), Returned tt) /\
    to m = [APPROVER_EMAIL (env w)].
Proof.
  unfold sendEmailNotification, sendMail. unfold_monad.
  destruct (mail_fault (oracle w) (mail_calls w)); do 2 eexists; split; reflexivity.
Qed.

(** The lookup of an address makes one database call and never throws. *)
Lemma getUserEmailByUsername_run name (w : World) :
  getUserEmailByUsername name w =
  match db_fault (oracle w) (db_calls w) with
  | None => (bump_db w, Returned (lookup_email name (users w)))
  | Some msg =>
    (push_console ("Error fetching sender email: " +:+ msg) (bump_db w), Returned None)
  end.
Proof.
  unfold getUserEmailByUsername, db_execute, lookup_email, Sql.select_email. unfold_monad.
  destruct (db_fault (oracle w) (db_calls w)); simpl; [reflexivity|].
  destruct (List.filter _ (users w)); reflexivity.
Qed.

(** ** How the approval handler runs *)

Ltac run_notice :=
  match goal with
  | |- context [sendApprovalNotification ?a ?b ?c ?d ?e ?w] =>
    let line := fresh "line" in
    destruct (sendApprovalNotification_run a b c d e w) as [line ->]
  end.

(** The path on which the row exists and the database answers. *)
Lemma put_api_approve_found key decision approver (w : World) doc :
  db_fault (oracle w) (db_calls w) = None ->
  db_fault (oracle w) (S (db_calls w)) = None ->
  List.find (Sql.with_id key) (documents w) = Some doc ->
  let addr := sender_address w (S (S (db_calls w))) (uploaded_by doc) in
  let sender := EMAIL_USER (env w) in
  exists w',
    put_api_approve key decision approver w =
      (w', Returned (json 200 (Message "Approval status updated and notification sent"))) /\
    documents w' =
      map (fun d => if Sql.with_id key d
                    then Sql.set_approval decision approver (ist_now w) d else d)
          (documents w) /\
    outbox w' =
      outbox w ++
      (if String.eqb decision "Approved" then
         [approval_mail sender [addr] (document_name doc) (uploaded_by doc)
            "Approved" (Some "sender");
          approval_mail sender [REVIEWER_EMAIL (env w)] (document_name doc) (uploaded_by doc)
            "Pending Review" (Some "reviewer")]
       else
         [approval_mail sender [addr] (document_name doc) (uploaded_by doc)
            "Unapproved" None]).
Proof.
  intros Hupd Hsel Hdoc addr sender.
  rewrite find_head_filter in Hdoc.
  destruct (List.filter (Sql.with_id key) (documents w)) as [|d0 rest] eqn:Hrows;
    [discriminate|]. simpl in Hdoc. injection Hdoc as ->.
  unfold put_api_approve, db_execute. unfold_monad.
  simpl. rewrite Hupd. simpl. rewrite Hrows. simpl. rewrite Hsel.
  rewrite filter_update by reflexivity. rewrite Hrows. simpl.
  rewrite getUserEmailByUsername_run. simpl.
  subst addr. unfold sender_address.
  destruct (db_fault (oracle w) (S (S (db_calls w)))) as [msg|];
    destruct (String.eqb decision "Approved"); cbv beta;
    repeat run_notice; simpl; eexists; (split; [reflexivity|]); simpl;
    rewrite <- ?app_assoc; split; reflexivity.
Qed.

(** The path on which no row has the key. *)
Lemma put_api_approve_missing key decision approver (w : World) :
  db_fault (oracle w) (db_calls w) = None ->
  List.find (Sql.with_id key) (documents w) = None ->
  put_api_approve key decision approver w =
    (bump_db w, Returned (json 404 (Message "Document not found"))).
Proof.
  intros Hupd Hnone. apply filter_nil_find in Hnone.
  unfold put_api_approve, db_execute. unfold_monad.
  simpl. rewrite Hupd. simpl. rewrite Hnone. simpl.
  rewrite update_none by exact Hnone. reflexivity.
Qed.

(** Once the UPDATE is answered its effect stays, whatever happens to the
    rest of the request; nothing else in the persistent state moves. *)
Lemma put_api_approve_committed key decision approver (w : World) :
  db_fault (oracle w) (db_calls w) = None ->
  let w' := final (put_api_approve key decision approver) w in
  documents w' =
    map (fun d => if Sql.with_id key d
                  then Sql.set_approval decision approver (ist_now w) d else d)
        (documents w) /\
  elsewhere w' = elsewhere w.
Proof.
  intros Hupd w'. subst w'. unfold final.
  destruct (List.find (Sql.with_id key) (documents w)) as [doc|] eqn:Hdoc.
  - destruct (db_fault (oracle w) (S (db_calls w))) as [msg|] eqn:Hsel.
    + rewrite find_head_filter in Hdoc.
      destruct (List.filter (Sql.with_id key) (documents w)) as [|d0 rest] eqn:Hrows;
        [discriminate|].
      unfold put_api_approve, db_execute. unfold_monad.
      simpl. rewrite Hupd. simpl. rewrite Hrows. simpl. rewrite Hsel. simpl.
      split; reflexivity.
    + destruct (put_api_approve_found key decision approver w doc Hupd Hsel Hdoc)
        as (w' & Hrun & Hdocs & _).
      rewrite Hrun. simpl. split; [exact Hdocs|].
      revert Hrun. clear Hdocs.
      rewrite find_head_filter in Hdoc.
      destruct (List.filter (Sql.with_id key) (documents w)) as [|d0 rest] eqn:Hrows;
        [discriminate|].
      unfold put_api_approve, db_execute. unfold_monad.
      simpl. rewrite Hupd. simpl. rewrite Hrows. simpl. rewrite Hsel.
      rewrite filter_update by reflexivity. rewrite Hrows. simpl.
      rewrite getUserEmailByUsername_run. simpl.
      destruct (db_fault (oracle w) (S (S (db_calls w)))) as [msg|];
        destruct (String.eqb decision "Approved"); cbv beta;
        repeat run_notice; simpl; intros [= <-]; reflexivity.
  - rewrite put_api_approve_missing by assumption. simpl.
    apply filter_nil_find in Hdoc. rewrite update_none by exact Hdoc.
    split; reflexivity.
Qed.

(** A rejected UPDATE leaves every table as it was. *)
Lemma put_api_approve_rejected key decision approver (w : World) msg :
  db_fault (oracle w) (db_calls w) = Some msg ->
  put_api_approve key decision approver w =
    (push_console ("Error updating approval status: " +:+ show_exn (JsError msg)) (bump_db w),
     Returned (json 500 (ErrorBody "Internal server error"))).
Proof.
  intros Hupd. unfold put_api_approve, db_execute. unfold_monad.
  simpl. rewrite Hupd. reflexivity.
Qed.

(** ** How the review handler runs *)

(** The UPDATE is answered: its effect stays; the response is decided by
    the mail transport alone. *)
Lemma put_api_review_committed who decision reviewed_by (w : World) :
  db_fault (oracle w) (db_calls w) = None ->
  let w' := final (put_api_review who decision reviewed_by) w in
  documents w' =
    map (fun d => if Sql.reviewable who d
                  then Sql.set_review decision reviewed_by (clock w) d else d)
        (documents w) /\
  elsewhere w' = elsewhere w /\
  outbox w' =
    outbox w ++
    [review_mail (EMAIL_USER (env w))
       [sender_address w (S (db_calls w)) who; APPROVER_EMAIL (env w)]
       who decision reviewed_by] /\
  result (put_api_review who decision reviewed_by) w =
    Returned
      match mail_fault (oracle w) (mail_calls w) with
      | None => json 200 (Message "Review status updated and notification sent.")
      | Some _ => json 500 (ErrorBody "Failed to update review status.")
      end.
Proof.
  intros Hupd w'. subst w'. unfold final, result, put_api_review, db_execute, sendMail.
  unfold_monad. simpl. rewrite Hupd. simpl.
  rewrite getUserEmailByUsername_run. simpl. unfold sender_address.
  destruct (db_fault (oracle w) (S (db_calls w))) as [msg|]; simpl;
    destruct (mail_fault (oracle w) (mail_calls w)) as [msg'|]; simpl;
    repeat split; reflexivity.
Qed.

(** The UPDATE is rejected: nothing is written and nothing is sent. *)
Lemma put_api_review_rejected who decision reviewed_by (w : World) msg :
  db_fault (oracle w) (db_calls w) = Some msg ->
  put_api_review who decision reviewed_by w =
    (push_console ("DB Error: " +:+ show_exn (JsError msg)) (bump_db w),
     Returned (json 500 (ErrorBody "Failed to update review status."))).
Proof.
  intros Hupd. unfold put_api_review, db_execute. unfold_monad.
  simpl. rewrite Hupd. reflexivity.
Qed.

(** ** How the upload runs *)

Lemma find_app_fresh {A} (p : A -> bool) (l : list A) (x : A) :
  List.find p l = None -> p x = true -> List.find p (l ++ [x]) = Some x.
Proof.
  intros Hl Hx. induction l as [|a l IH]; simpl in *.
  - now rewrite Hx.
  - destruct (p a); [discriminate|auto].
Qed.

Lemma find_filter_negb {A} (p : A -> bool) (l : list A) :
  List.find p (List.filter (fun a => negb (p a)) l) = None.
Proof.
  induction l as [|a l IH]; simpl; [reflexivity|].
  destruct (p a) eqn:Ha; simpl; [exact IH|]. now rewrite Ha.
Qed.

Lemma filter_negb_fresh {A} (p : A -> bool) (l : list A) :
  List.find p l = None -> List.filter (fun a => negb (p a)) l = l.
Proof.
  induction l as [|a l IH]; simpl; [reflexivity|].
  destruct (p a); [discriminate|]. simpl. intros H. now rewrite IH.
Qed.

(** The file multer has just written is the one found at its path. *)
Lemma find_written path data (fs : list LocalFile) :
  List.find (fun f => String.eqb (local_path f) path) (write_local path data fs) =
  Some {| local_path := path; bytes := data |}.
Proof.
  unfold write_local. apply find_app_fresh.
  - apply (find_filter_negb (fun f => String.eqb (local_path f) path)).
  - simpl. apply String.eqb_refl.
Qed.

(** Removing it again leaves what was there under other paths. *)
Lemma unlink_written path data (fs : list LocalFile) :
  List.filter (fun f => negb (String.eqb (local_path f) path)) (write_local path data fs) =
  List.filter (fun f => negb (String.eqb (local_path f) path)) fs.
Proof.
  unfold write_local. rewrite List.filter_app. simpl. rewrite String.eqb_refl. simpl.
  rewrite app_nil_r.
  induction fs as [|a fs IH]; simpl; [reflexivity|].
  destruct (negb (String.eqb (local_path a) path)) eqn:Ha; simpl; [|exact IH].
  rewrite Ha. now rewrite IH.
Qed.

(** An accepted file: the request succeeds exactly when Drive answers both
    calls and the database answers the INSERT; then one row is added, the one
    of [uploaded_row]. Otherwise the response is a 500 and the table is as it
    was. *)
Lemma post_upload_accepted req (w : World) :
  fileFilter (originalname req) = None ->
  exists w' resp,
    post_upload req w = (w', Returned resp) /\
    match drive_fault (oracle w) (drive_calls w),
          drive_fault (oracle w) (S (drive_calls w)),
          db_fault (oracle w) (db_calls w) with
    | None, None, None =>
      resp = json 200 (SuccessMessage "Document uploaded to Google Drive and saved") /\
      documents w' = documents w ++ [uploaded_row req w] /\
      exists f, In f (drive w') /\ file_id f = drive_file_id (oracle w) (drive_calls w) /\
                anyone_reader f = true
    | _, _, _ =>
      status resp = 500 /\ documents w' = documents w
    end.
Proof.
  intros Hpdf. unfold post_upload. rewrite Hpdf.
  unfold upload_handler, drive_files_create, drive_permissions_create, db_execute,
    fs_unlinkSync.
  unfold_monad. simpl.
  set (path := "uploads/" +:+ pretty (clock w) +:+ "-" +:+ originalname req).
  unfold read_local. simpl. rewrite find_written. simpl.
  destruct (drive_fault (oracle w) (drive_calls w)) as [m1|]; simpl;
    [do 2 eexists; split; [reflexivity|split; reflexivity]|].
  destruct (drive_fault (oracle w) (S (drive_calls w))) as [m2|]; simpl;
    [do 2 eexists; split; [reflexivity|split; reflexivity]|].
  destruct (db_fault (oracle w) (db_calls w)) as [m3|]; simpl;
    [do 2 eexists; split; [reflexivity|split; reflexivity]|].
  match goal with
  | |- context [sendEmailNotification ?a ?b ?c ?w0] =>
    destruct (sendEmailNotification_run a b c w0) as (line & m & -> & _)
  end.
  simpl. rewrite find_written. simpl.
  do 2 eexists. split; [reflexivity|]. simpl.
  split; [reflexivity|]. split; [reflexivity|].
  eexists. split.
  { apply in_map, in_or_app. right. left. reflexivity. }
  unfold make_public. simpl. rewrite String.eqb_refl. split; reflexivity.
Qed.

(** ** [LIKE] against a key without special characters *)

Section Like.

Lemma like_percent (pat s : string) :
  Sql.like (String "%" pat) s =
  Sql.like pat s ||
  match s with
  | EmptyString => false
  | String _ s' => Sql.like (String "%" pat) s'
  end.
Proof. destruct s; reflexivity. Qed.

Lemma like_literal (c : ascii) (pat s : string) :
  like_special c = false ->
  Sql.like (String c pat) s =
  match s with
  | EmptyString => false
  | String b s' => Ascii.eqb b c && Sql.like pat s'
  end.
Proof.
  unfold like_special. intros Hc.
  apply orb_false_iff in Hc as [Hc Hbs]. apply orb_false_iff in Hc as [Hpc Hus].
  simpl. rewrite Hpc, Hus, Hbs. reflexivity.
Qed.

(** A lone [%] matches everything. *)
Lemma like_any (s : string) : Sql.like "%" s = true.
Proof.
  induction s as [|b s IH]; [reflexivity|].
  rewrite like_percent. rewrite IH. apply orb_true_r.
Qed.

(** [key%] matches the strings that start with [key]. *)
Lemma like_prefix (k s : string) :
  like_plain k = true -> Sql.like (k +:+ "%") s = Str.is_prefix k s.
Proof.
  revert s. induction k as [|c k IH]; intros s Hk.
  - simpl. apply like_any.
  - simpl in Hk. apply andb_true_iff in Hk as [Hc Hk].
    apply negb_true_iff in Hc.
    change (String c k +:+ "%") with (String c (k +:+ "%")).
    rewrite like_literal by exact Hc.
    destruct s as [|b s]; [reflexivity|]. simpl.
    rewrite IH by exact Hk. rewrite Ascii.eqb_sym.
    destruct (Ascii.eqb c b); reflexivity.
Qed.

(** [%key%] matches the strings that include [key]. *)
Lemma like_includes (k s : string) :
  like_plain k = true -> Sql.like ("%" +:+ k +:+ "%") s = Str.includes s k.
Proof.
  intros Hk. change ("%" +:+ k +:+ "%") with (String "%" (k +:+ "%")).
  induction s as [|b s IH].
  - rewrite like_percent, like_prefix by exact Hk. reflexivity.
  - rewrite like_percent, like_prefix, IH by exact Hk. reflexivity.
Qed.

Lemma is_prefix_spec (p s : string) :
  Str.is_prefix p s = true <-> exists r, s = p +:+ r.
Proof.
  revert s. induction p as [|a p IH]; intros s; simpl.
  - split; eauto.
  - destruct s as [|b s].
    + split; [discriminate|]. intros [r Hr]. discriminate.
    + destruct (Ascii.eqb_spec a b) as [->|Hne].
      * rewrite IH. split; intros [r Hr]; exists r.
        -- simpl. now rewrite Hr.
        -- simpl in Hr. now injection Hr.
      * split; [discriminate|]. intros [r Hr]. simpl in Hr.
        injection Hr as Hab _. congruence.
Qed.

(** [Str.includes] decides the specification's "contains". *)
Lemma includes_spec (s k : string) :
  Str.includes s k = true <-> contains s k.
Proof.
  unfold contains. induction s as [|b s IH]; simpl.
  - rewrite orb_false_r, is_prefix_spec. split.
    + intros [r Hr]. exists EmptyString, r. exact Hr.
    + intros (l & r & H). destruct l; simpl in H; [eauto|discriminate].
  - rewrite orb_true_iff, is_prefix_spec, IH. split.
    + intros [[r Hr]|(l & r & H)].
      * exists EmptyString, r. exact Hr.
      * exists (String b l), r. simpl. now rewrite H.
    + intros (l & r & H). destruct l as [|a l]; simpl in H.
      * left. eauto.
      * right. exists l, r. now injection H.
Qed.

End Like.

(** ** The review transition *)

Lemma reviewable_spec who d : Sql.reviewable who d = true <-> approved_row_of who d.
Proof.
  unfold Sql.reviewable, approved_row_of.
  rewrite andb_true_iff, !String.eqb_eq. reflexivity.
Qed.

Lemma no_reviewable_rows who (l : list Document) :
  (forall d, In d l -> ~ approved_row_of who d) -> List.filter (Sql.reviewable who) l = [].
Proof.
  intros Hnone. induction l as [|d l IH]; simpl; [reflexivity|].
  destruct (Sql.reviewable who d) eqn:Hd.
  - exfalso. apply (Hnone d); [now left|]. now apply reviewable_spec.
  - apply IH. intros d' Hd'. apply Hnone. now right.
Qed.

(** The review handler never changes the number of rows, nor a row the
    statement does not select, whatever the services answer. *)
Lemma put_api_review_documents who decision reviewed_by (w : World) :
  documents (final (put_api_review who decision reviewed_by) w) =
  match db_fault (oracle w) (db_calls w) with
  | None =>
    map (fun d => if Sql.reviewable who d
                  then Sql.set_review decision reviewed_by (clock w) d else d)
        (documents w)
  | Some _ => documents w
  end.
Proof.
  destruct (db_fault (oracle w) (db_calls w)) as [msg|] eqn:Hupd.
  - unfold final. now rewrite (put_api_review_rejected _ _ _ _ _ Hupd).
  - now destruct (put_api_review_committed who decision reviewed_by w Hupd) as [-> _].
Qed.

(** C1. The review transition for an uploader changes exactly the rows of
    that uploader whose [approval_status] is Approved: each gets the decision
    as [review_status], the reviewer as [reviewer] and the time of the request
    as [review_time], and keeps every other column. Every other row (still
    Pending, or of any other status, or of another uploader) stays as it is,
    whatever the services answer, and the table keeps its length. When no row
    qualifies the table is unchanged and that is no error: the notice is sent
    as always, and the response is what it is with qualifying rows, the
    ordinary success unless the transport fails. *)
Theorem review_changes_exactly_the_approved_rows who decision reviewed_by (w : World) :
  let w' := final (put_api_review who decision reviewed_by) w in
  (forall (i : nat) d,
      documents w !! i = Some d -> ~ approved_row_of who d ->
      documents w' !! i = Some d) /\
  (db_fault (oracle w) (db_calls w) = None ->
   forall (i : nat) d,
      documents w !! i = Some d -> approved_row_of who d ->
      exists d',
        documents w' !! i = Some d' /\
        review_status d' = decision /\
        reviewer d' = Some reviewed_by /\
        review_time d' = Some (clock w) /\
        identity_columns d' = identity_columns d /\
        approval_columns d' = approval_columns d) /\
  List.length (documents w') = List.length (documents w) /\
  ((forall d, In d (documents w) -> ~ approved_row_of who d) ->
   documents w' = documents w /\
   (db_fault (oracle w) (db_calls w) = None ->
    result (put_api_review who decision reviewed_by) w =
      Returned
        match mail_fault (oracle w) (mail_calls w) with
        | None => json 200 (Message "Review status updated and notification sent.")
        | Some _ => json 500 (ErrorBody "Failed to update review status.")
        end)).
Proof.
  intros w'. subst w'. rewrite put_api_review_documents.
  split; [|split; [|split; [|split]]].
  - intros i d Hi Hno.
    destruct (db_fault (oracle w) (db_calls w)); [exact Hi|].
    rewrite (update_lookup _ _ _ _ _ Hi).
    destruct (Sql.reviewable who d) eqn:Hd; [|reflexivity].
    exfalso. apply Hno. now apply reviewable_spec.
  - intros Hupd i d Hi Hyes. rewrite Hupd.
    rewrite (update_lookup _ _ _ _ _ Hi).
    apply reviewable_spec in Hyes. rewrite Hyes.
    eexists. split; [reflexivity|]. repeat split.
  - destruct (db_fault (oracle w) (db_calls w)); [reflexivity|].
    apply List.length_map.
  - destruct (db_fault (oracle w) (db_calls w)); [reflexivity|].
    apply update_none. now apply no_reviewable_rows.
  - intros Hupd.
    now destruct (put_api_review_committed who decision reviewed_by w Hupd)
      as (_ & _ & _ & ->).
Qed.

Lemma review_changes_exactly_the_approved_rows_witness :
  let w := Sample.world Sample.calm in
  let w' := final (put_api_review "alice" "Approved" "carol") w in
  (exists d',
     documents w' !! 0%nat = Some d' /\
     review_status d' = "Approved" /\
     reviewer d' = Some "carol" /\
     review_time d' = Some 1700000002123 /\
     approval_columns d' = approval_columns Sample.alice_approved) /\
  documents w' !! 1%nat = Some Sample.alice_pending /\
  (documents (final (put_api_review "zoe" "Approved" "carol") w) = documents w /\
   result (put_api_review "zoe" "Approved" "carol") w =
     Returned (json 200 (Message "Review status updated and notification sent."))).
Proof.
  intros w w'. subst w'.
  destruct (review_changes_exactly_the_approved_rows "alice" "Approved" "carol" w)
    as (Hframe & Heffect & _ & _).
  destruct (review_changes_exactly_the_approved_rows "zoe" "Approved" "carol" w)
    as (_ & _ & _ & Hnone).
  split; [|split].
  - destruct (Heffect eq_refl 0%nat Sample.alice_approved)
      as (d' & Hrow & Hst & Hwho & Htime & _ & Happroval);
      [reflexivity|split; reflexivity|].
    exists d'. repeat split; assumption.
  - apply Hframe; [reflexivity|]. intros [_ H]. discriminate H.
  - destruct Hnone as [Hsame Hok].
    + intros d Hd [Hwho _]. simpl in Hd.
      destruct Hd as [<-|[<-|[<-|[]]]]; discriminate Hwho.
    + split; [exact Hsame|]. exact (Hok eq_refl).
Defined.

(** C10. Review is not once-only. A row that is Approved and already carries
    a review decision other than Pending is reviewed again by the next review
    of its uploader: [review_status], [reviewer] and [review_time] become the
    new decision, the new reviewer and the time of the new request, and every
    other column keeps its value. *)
Theorem review_overwrites_an_earlier_review who decision reviewed_by (w : World)
    (i : nat) (d : Document) :
  db_fault (oracle w) (db_calls w) = None ->
  documents w !! i = Some d ->
  uploaded_by d = who ->
  approval_status d = "Approved" ->
  review_status d <> "Pending" ->
  exists d',
    documents (final (put_api_review who decision reviewed_by) w) !! i = Some d' /\
    review_status d' = decision /\
    reviewer d' = Some reviewed_by /\
    review_time d' = Some (clock w) /\
    (id d', document_name d', document_link d', uploaded_by d', upload_time d') =
    (id d, document_name d, document_link d, uploaded_by d, upload_time d) /\
    (approval_status d', approved_by d', approval_time d') =
    (approval_status d, approved_by d, approval_time d).
Proof.
  intros Hupd Hi Hwho Happroved _.
  exists (Sql.set_review decision reviewed_by (clock w) d).
  split; [|repeat split].
  rewrite put_api_review_documents, Hupd, (update_lookup _ _ _ _ _ Hi).
  assert (Sql.reviewable who d = true) as -> by now apply reviewable_spec.
  reflexivity.
Qed.

Lemma review_overwrites_an_earlier_review_witness :
  review_status Sample.alice_approved = "Rejected" /\
  reviewer Sample.alice_approved = Some "dave" /\
  exists d',
    documents (final (put_api_review "alice" "Approved" "carol")
                 (Sample.world Sample.calm)) !! 0%nat = Some d' /\
    review_status d' = "Approved" /\
    reviewer d' = Some "carol" /\
    review_time d' = Some 1700000002123.
Proof.
  split; [reflexivity|]. split; [reflexivity|].
  destruct (review_overwrites_an_earlier_review "alice" "Approved" "carol"
              (Sample.world Sample.calm) 0%nat Sample.alice_approved)
    as (d' & Hrow & Hst & Hwho & Htime & _).
  - reflexivity.
  - reflexivity.
  - reflexivity.
  - reflexivity.
  - discriminate.
  - exists d'. repeat split; assumption.
Defined.

(** ** The approval transition *)

Lemma with_id_spec key d : Sql.with_id key d = true <-> id d = key.
Proof. unfold Sql.with_id. apply Z.eqb_eq. Qed.

Lemma no_row_with_id key (l : list Document) :
  (forall d, In d l -> id d <> key) -> List.find (Sql.with_id key) l = None.
Proof.
  intros Hnone. apply filter_nil_find.
  induction l as [|d l IH]; simpl; [reflexivity|].
  destruct (Sql.with_id key d) eqn:Hd.
  - exfalso. apply (Hnone d); [now left|]. now apply with_id_spec.
  - apply IH. intros d' Hd'. apply Hnone. now right.
Qed.

(** The two templates of an approval differ in subject and in body, whatever
    the document. *)
Lemma approval_templates_differ documentName who st st' :
  approval_subject documentName st (Some "sender") <>
  approval_subject documentName st' (Some "reviewer") /\
  approval_html documentName who st (Some "sender") <>
  approval_html documentName who st' (Some "reviewer").
Proof.
  split; intros H; simpl in H; discriminate H.
Qed.

(** C2. An approval transition on an existing document, the database
    answering: if the decision is Approved, exactly two messages are handed to
    the transporter, the first to the uploader with the sender template, the
    second to the reviewer role with the reviewer template, and the two differ
    in subject and body; for any other decision exactly one message is handed
    over, to the uploader alone. *)
Theorem approval_notifies_two_or_one key decision approver (w : World) (doc : Document) :
  db_fault (oracle w) (db_calls w) = None ->
  db_fault (oracle w) (S (db_calls w)) = None ->
  List.find (Sql.with_id key) (documents w) = Some doc ->
  let w' := final (put_api_approve key decision approver) w in
  let uploader := [sender_address w (S (S (db_calls w))) (uploaded_by doc)] in
  let reviewers := [REVIEWER_EMAIL (env w)] in
  (decision = "Approved" ->
   exists m1 m2,
     outbox w' = outbox w ++ [m1; m2] /\
     m1 = approval_mail (EMAIL_USER (env w)) uploader (document_name doc) (uploaded_by doc)
            "Approved" (Some "sender") /\
     m2 = approval_mail (EMAIL_USER (env w)) reviewers (document_name doc) (uploaded_by doc)
            "Pending Review" (Some "reviewer") /\
     to m1 = uploader /\ to m2 = reviewers /\
     subject m1 <> subject m2 /\ html m1 <> html m2) /\
  (decision <> "Approved" ->
   exists m,
     outbox w' = outbox w ++ [m] /\
     m = approval_mail (EMAIL_USER (env w)) uploader (document_name doc) (uploaded_by doc)
           "Unapproved" None /\
     to m = uploader).
Proof.
  intros Hupd Hsel Hdoc w' uploader reviewers. subst w' uploader reviewers.
  destruct (put_api_approve_found key decision approver w doc Hupd Hsel Hdoc)
    as (w' & Hrun & _ & Hout).
  unfold final. rewrite Hrun. simpl. split.
  - intros ->. rewrite String.eqb_refl in Hout.
    do 2 eexists. split; [exact Hout|].
    split; [reflexivity|]. split; [reflexivity|].
    split; [reflexivity|]. split; [reflexivity|].
    exact (approval_templates_differ (document_name doc) (uploaded_by doc)
             "Approved" "Pending Review").
  - intros Hne. apply String.eqb_neq in Hne. rewrite Hne in Hout.
    eexists. split; [exact Hout|]. split; reflexivity.
Qed.

Lemma approval_notifies_two_or_one_witness :
  let w := Sample.world Sample.calm in
  List.length (outbox (final (put_api_approve 2 "Approved" "bob") w)) = 2%nat /\
  List.length (outbox (final (put_api_approve 2 "Unapproved" "bob") w)) = 1%nat.
Proof.
  intros w.
  destruct (approval_notifies_two_or_one 2 "Approved" "bob" w Sample.alice_pending)
    as [Hyes _]; [reflexivity|reflexivity|reflexivity|].
  destruct (approval_notifies_two_or_one 2 "Unapproved" "bob" w Sample.alice_pending)
    as [_ Hno]; [reflexivity|reflexivity|reflexivity|].
  split.
  - destruct Hyes as (m1 & m2 & -> & _); reflexivity.
  - destruct Hno as (m & -> & _); [discriminate|reflexivity].
Defined.

(** After the UPDATE the first row with the key is the old first row, with
    its three approval columns set. *)
Lemma find_after_approval key st who t (l : list Document) doc :
  List.find (Sql.with_id key) l = Some doc ->
  List.find (Sql.with_id key)
    (map (fun d => if Sql.with_id key d then Sql.set_approval st who t d else d) l) =
  Some (Sql.set_approval st who t doc).
Proof.
  rewrite !find_head_filter. rewrite filter_update by reflexivity.
  destruct (List.filter (Sql.with_id key) l); simpl; congruence.
Qed.

Lemma in_after_approval key st who t (l : list Document) d' :
  In d' (map (fun d => if Sql.with_id key d then Sql.set_approval st who t d else d) l) ->
  id d' = key ->
  approval_status d' = st /\ approved_by d' = Some who /\ approval_time d' = Some t.
Proof.
  intros Hin Hkey. apply in_map_iff in Hin as (d & <- & _).
  destruct (Sql.with_id key d) eqn:Hd; [repeat split|].
  apply with_id_spec in Hkey. congruence.
Qed.

(** C9. The decision is stored as given. For every string other than
    "Approved", an approval transition on an existing document, the database
    answering, stores that string as the [approval_status] of the document
    and hands over the single message of the other-than-Approved branch. *)
Theorem approval_stores_any_status key (s : string) approver (w : World) (doc : Document) :
  s <> "Approved" ->
  db_fault (oracle w) (db_calls w) = None ->
  db_fault (oracle w) (S (db_calls w)) = None ->
  List.find (Sql.with_id key) (documents w) = Some doc ->
  let w' := final (put_api_approve key s approver) w in
  List.find (Sql.with_id key) (documents w') =
    Some (Sql.set_approval s approver (ist_now w) doc) /\
  (forall d, In d (documents w') -> id d = key -> approval_status d = s) /\
  outbox w' =
    outbox w ++
    [approval_mail (EMAIL_USER (env w))
       [sender_address w (S (S (db_calls w))) (uploaded_by doc)]
       (document_name doc) (uploaded_by doc) "Unapproved" None] /\
  result (put_api_approve key s approver) w =
    Returned (json 200 (Message "Approval status updated and notification sent")).
Proof.
  intros Hne Hupd Hsel Hdoc w'. subst w'.
  destruct (put_api_approve_found key s approver w doc Hupd Hsel Hdoc)
    as (w' & Hrun & Hdocs & Hout).
  unfold final, result. rewrite Hrun. simpl.
  apply String.eqb_neq in Hne. rewrite Hne in Hout. rewrite Hdocs.
  split; [now apply find_after_approval|].
  split; [|split; [exact Hout|reflexivity]].
  intros d Hd Hkey. now apply (in_after_approval key s approver (ist_now w) _ d Hd).
Qed.

Lemma approval_stores_any_status_witness :
  let w' := final (put_api_approve 2 "On hold" "bob") (Sample.world Sample.calm) in
  approval_status <$> List.find (Sql.with_id 2) (documents w') = Some "On hold" /\
  List.length (outbox w') = 1%nat.
Proof.
  intros w'. subst w'.
  destruct (approval_stores_any_status 2 "On hold" "bob" (Sample.world Sample.calm)
              Sample.alice_pending)
    as (Hrow & _ & Hout & _); [discriminate|reflexivity|reflexivity|reflexivity|].
  rewrite Hrow, Hout. split; reflexivity.
Defined.

(** C4. An approval transition whose UPDATE the database answers sets
    [approval_status], [approved_by] and [approval_time] in one statement on
    the rows with the given identifier and on no other row, whatever those
    columns held before; when no row has the identifier the response is
    404 "Document not found" and neither the persistent state nor the outbox
    changes. *)
Theorem approval_sets_the_row_or_reports_missing key decision approver (w : World) :
  db_fault (oracle w) (db_calls w) = None ->
  let w' := final (put_api_approve key decision approver) w in
  (forall (i : nat) d,
      documents w !! i = Some d ->
      documents w' !! i =
        Some (if id d =? key
              then Sql.set_approval decision approver (ist_now w) d else d)) /\
  (forall d', In d' (documents w') -> id d' = key ->
      approval_status d' = decision /\
      approved_by d' = Some approver /\
      approval_time d' = Some (ist_now w)) /\
  ((forall d, In d (documents w) -> id d <> key) ->
   result (put_api_approve key decision approver) w =
     Returned (json 404 (Message "Document not found")) /\
   persistent w' = persistent w /\
   outbox w' = outbox w).
Proof.
  intros Hupd w'. subst w'.
  destruct (put_api_approve_committed key decision approver w Hupd) as [Hdocs Helse].
  split; [|split].
  - intros i d Hi. rewrite Hdocs.
    exact (update_lookup (Sql.with_id key) _ _ _ _ Hi).
  - intros d' Hd' Hkey. rewrite Hdocs in Hd'.
    now apply (in_after_approval key decision approver (ist_now w) _ d' Hd').
  - intros Hnone. apply no_row_with_id in Hnone.
    unfold final, result.
    rewrite (put_api_approve_missing key decision approver w Hupd Hnone).
    repeat split.
Qed.

Lemma approval_sets_the_row_or_reports_missing_witness :
  let w := Sample.world Sample.calm in
  documents (final (put_api_approve 1 "Unapproved" "bob") w) !! 0%nat =
    Some (Sql.set_approval "Unapproved" "bob" 1700019802000 Sample.alice_approved) /\
  result (put_api_approve 9 "Approved" "bob") w =
    Returned (json 404 (Message "Document not found")) /\
  documents (final (put_api_approve 9 "Approved" "bob") w) = documents w.
Proof.
  intros w.
  destruct (approval_sets_the_row_or_reports_missing 1 "Unapproved" "bob" w)
    as (Hrow & _ & _); [reflexivity|].
  destruct (approval_sets_the_row_or_reports_missing 9 "Approved" "bob" w)
    as (_ & _ & Hmissing); [reflexivity|].
  split; [|split].
  - exact (Hrow 0%nat Sample.alice_approved eq_refl).
  - apply Hmissing. intros d Hd. simpl in Hd.
    destruct Hd as [<-|[<-|[<-|[]]]]; discriminate.
  - assert (persistent (final (put_api_approve 9 "Approved" "bob") w) = persistent w)
      as Hsame.
    { apply Hmissing. intros d Hd. simpl in Hd.
      destruct Hd as [<-|[<-|[<-|[]]]]; discriminate. }
    exact (f_equal (fun p => fst (fst (fst (fst (fst p))))) Hsame).
Defined.

(** ** Upload *)

(** C5. A successful submission of a file that passes the PDF filter adds
    exactly one row to [documents]; the row has [approval_status] Pending,
    [review_status] Pending and a link that is not null: the download address
    of a file that now sits in the Drive folder, readable by anyone. *)
Theorem successful_upload_adds_one_pending_row req (w w' : World) (resp : Response) :
  fileFilter (originalname req) = None ->
  post_upload req w = (w', Returned resp) ->
  status resp = 200 ->
  exists d link,
    documents w' = documents w ++ [d] /\
    approval_status d = "Pending" /\
    review_status d = "Pending" /\
    document_link d = Some link /\
    exists f, In f (drive w') /\ anyone_reader f = true /\
              link = "https://drive.google.com/uc?id=" +:+ file_id f.
Proof.
  intros Hpdf Hrun Hok.
  destruct (post_upload_accepted req w Hpdf) as (w1 & resp1 & Hrun1 & Hcases).
  rewrite Hrun in Hrun1. injection Hrun1 as <- <-.
  destruct (drive_fault (oracle w) (drive_calls w));
    [destruct Hcases as [H500 _]; rewrite H500 in Hok; discriminate|].
  destruct (drive_fault (oracle w) (S (drive_calls w)));
    [destruct Hcases as [H500 _]; rewrite H500 in Hok; discriminate|].
  destruct (db_fault (oracle w) (db_calls w));
    [destruct Hcases as [H500 _]; rewrite H500 in Hok; discriminate|].
  destruct Hcases as (_ & Hdocs & f & Hf & Hid & Hpublic).
  exists (uploaded_row req w). eexists.
  split; [exact Hdocs|]. split; [reflexivity|]. split; [reflexivity|].
  split; [reflexivity|].
  exists f. rewrite Hid. repeat split; assumption.
Qed.

Lemma successful_upload_adds_one_pending_row_witness :
  let w := Sample.world Sample.calm in
  status <$> (match result (post_upload Sample.pdf_upload) w with
              | Returned r => Some r | Thrown _ => None end) = Some 200 /\
  exists d link,
    documents (final (post_upload Sample.pdf_upload) w) = documents w ++ [d] /\
    approval_status d = "Pending" /\
    review_status d = "Pending" /\
    document_link d = Some link.
Proof.
  intros w. split; [vm_compute; reflexivity|].
  destruct (successful_upload_adds_one_pending_row Sample.pdf_upload w
              (final (post_upload Sample.pdf_upload) w)
              (json 200 (SuccessMessage "Document uploaded to Google Drive and saved")))
    as (d & link & Hdocs & Hast & Hrst & Hlink & _).
  - vm_compute. reflexivity.
  - vm_compute. reflexivity.
  - reflexivity.
  - exists d, link. repeat split; assumption.
Defined.

(** C6. An upload whose file does not pass for a PDF (the extension of its
    name, in lower case, is not [.pdf]) is refused with the error
    "Only PDF files are allowed" before anything is written: the persistent
    state after the request (the tables, the Drive folder, the local
    directory, the passcodes) is the one before it, no mail was handed over
    and neither the database nor Drive nor the transport was called. *)
Theorem non_pdf_upload_is_refused_before_any_write req (w : World) :
  Str.toLowerCase (Path.extname (originalname req)) <> ".pdf" ->
  let w' := final (post_upload req) w in
  result (post_upload req) w =
    Returned (json 500 (DefaultErrorPage (JsError "Only PDF files are allowed"))) /\
  persistent w' = persistent w /\
  outbox w' = outbox w /\
  (db_calls w', drive_calls w', mail_calls w') = (db_calls w, drive_calls w, mail_calls w).
Proof.
  intros Hext w'. subst w'. unfold final, result, post_upload, fileFilter.
  apply String.eqb_neq in Hext. rewrite Hext. repeat split.
Qed.

Lemma non_pdf_upload_is_refused_before_any_write_witness :
  let w := Sample.world Sample.calm in
  result (post_upload Sample.text_upload) w =
    Returned (json 500 (DefaultErrorPage (JsError "Only PDF files are allowed"))) /\
  documents (final (post_upload Sample.text_upload) w) = documents w /\
  drive (final (post_upload Sample.text_upload) w) = [] /\
  uploads (final (post_upload Sample.text_upload) w) = [].
Proof.
  intros w.
  destruct (non_pdf_upload_is_refused_before_any_write Sample.text_upload w)
    as (Hres & Hsame & _ & _).
  - vm_compute. discriminate.
  - split; [exact Hres|].
    split; [exact (f_equal (fun p => fst (fst (fst (fst (fst p))))) Hsame)|].
    split; [exact (f_equal (fun p => snd (fst p)) Hsame)|
            exact (f_equal (fun p => snd p) Hsame)].
Defined.

(** ** Notification failures *)

(** An accepted upload answers 200 whatever the transporter does, as long as
    Drive and the database answer. *)
Lemma upload_survives_a_mail_failure req (w : World) :
  fileFilter (originalname req) = None ->
  drive_fault (oracle w) (drive_calls w) = None ->
  drive_fault (oracle w) (S (drive_calls w)) = None ->
  db_fault (oracle w) (db_calls w) = None ->
  result (post_upload req) w =
    Returned (json 200 (SuccessMessage "Document uploaded to Google Drive and saved")) /\
  documents (final (post_upload req) w) = documents w ++ [uploaded_row req w].
Proof.
  intros Hpdf Hd1 Hd2 Hdb.
  destruct (post_upload_accepted req w Hpdf) as (w1 & resp1 & Hrun1 & Hcases).
  rewrite Hd1, Hd2, Hdb in Hcases. destruct Hcases as (-> & Hdocs & _).
  unfold result, final. rewrite Hrun1. split; [reflexivity|exact Hdocs].
Qed.

(** So does an approval of an existing document. *)
Lemma approval_survives_a_mail_failure key decision approver (w : World) doc :
  db_fault (oracle w) (db_calls w) = None ->
  db_fault (oracle w) (S (db_calls w)) = None ->
  List.find (Sql.with_id key) (documents w) = Some doc ->
  result (put_api_approve key decision approver) w =
    Returned (json 200 (Message "Approval status updated and notification sent")).
Proof.
  intros Hupd Hsel Hdoc.
  destruct (put_api_approve_found key decision approver w doc Hupd Hsel Hdoc)
    as (w' & Hrun & _).
  unfold result. now rewrite Hrun.
Qed.

(** A review does not: the rows are updated and stay updated, yet the
    response is the 500 of a failed update. *)
Lemma review_fails_on_a_mail_failure who decision reviewed_by (w : World) msg :
  db_fault (oracle w) (db_calls w) = None ->
  mail_fault (oracle w) (mail_calls w) = Some msg ->
  result (put_api_review who decision reviewed_by) w =
    Returned (json 500 (ErrorBody "Failed to update review status.")) /\
  documents (final (put_api_review who decision reviewed_by) w) =
    map (fun d => if Sql.reviewable who d
                  then Sql.set_review decision reviewed_by (clock w) d else d)
        (documents w).
Proof.
  intros Hupd Hmail.
  destruct (put_api_review_committed who decision reviewed_by w Hupd)
    as (Hdocs & _ & _ & Hres).
  rewrite Hres, Hmail. split; [reflexivity|exact Hdocs].
Qed.

(** C3, at the input where the code departs from it. With the mail transport
    down, a review of alice's documents updates her Approved row and still
    answers 500 "Failed to update review status."; in the same world an
    approval and an upload answer 200. *)
Theorem review_answers_500_when_only_the_mail_fails :
  let w := Sample.world Sample.mail_down in
  result (put_api_review "alice" "Approved" "carol") w =
    Returned (json 500 (ErrorBody "Failed to update review status.")) /\
  documents (final (put_api_review "alice" "Approved" "carol") w) !! 0%nat =
    Some (Sql.set_review "Approved" "carol" 1700000002123 Sample.alice_approved) /\
  result (put_api_approve 2 "Approved" "bob") w =
    Returned (json 200 (Message "Approval status updated and notification sent")) /\
  result (post_upload Sample.pdf_upload) w =
    Returned (json 200 (SuccessMessage "Document uploaded to Google Drive and saved")).
Proof. vm_compute. repeat split. Qed.

(** ** One-time passcodes *)

(** For a candidate that is a string, verification is what the name says:
    it succeeds exactly when that string is the code stored for the email,
    it then deletes the entry, and it leaves the store alone otherwise. *)
Lemma verify_otp_with_a_string own candidate (w : World) :
  own <> "__proto__" ->
  let run := post_verify_otp (JString own) (JString candidate) in
  (otpStore w !! own = Some candidate ->
   run w = (set_otpStore (delete own (otpStore w)) w,
            Returned (json 200 (Message "OTP verified successfully")))) /\
  (otpStore w !! own <> Some candidate ->
   run w = (w, Returned (json 400 (Message "Invalid OTP")))).
Proof.
  intros Hown run. subst run. unfold post_verify_otp, get_property. unfold_monad.
  simpl. apply String.eqb_neq in Hown. rewrite Hown. split.
  - intros ->. simpl. now rewrite String.eqb_refl.
  - intros Hne. destruct (otpStore w !! own) as [otp|]; simpl.
    + destruct (String.eqb_spec candidate otp) as [->|_]; [congruence|reflexivity].
    + match goal with
      | |- context [if ?b then PInherited own else PUndefined] => destruct b
      end; reflexivity.
Qed.

(** A code that verified once does not verify a second time. *)
Lemma verify_otp_only_once own candidate (w : World) :
  own <> "__proto__" ->
  otpStore w !! own = Some candidate ->
  let run := post_verify_otp (JString own) (JString candidate) in
  result run (final run w) = Returned (json 400 (Message "Invalid OTP")).
Proof.
  intros Hown Hstored run. subst run.
  destruct (verify_otp_with_a_string own candidate w Hown) as [Hyes _].
  unfold final, result. rewrite (Hyes Hstored). simpl.
  destruct (verify_otp_with_a_string own candidate
              (set_otpStore (delete own (otpStore w)) w) Hown) as [_ Hno].
  rewrite Hno; [reflexivity|]. simpl. rewrite lookup_delete_eq. discriminate.
Qed.

(** C7, at the input where the code departs from it. No code is stored for
    bob@example.com and the request carries no [enteredOtp]: the lookup and
    the candidate are both [undefined], the comparison holds, and the
    response is 200 "OTP verified successfully"; a second such request is
    verified again. *)
Theorem verify_otp_accepts_a_request_without_code :
  let w := Sample.world Sample.calm in
  let run := post_verify_otp (JString "bob@example.com") JUndefined in
  otpStore w !! "bob@example.com" = None /\
  result run w = Returned (json 200 (Message "OTP verified successfully")) /\
  result run (final run w) = Returned (json 200 (Message "OTP verified successfully")).
Proof. vm_compute. repeat split. Qed.

(** ** Query views *)

Lemma truthy_spec (s : string) : Str.truthy s = true <-> s <> EmptyString.
Proof. destruct s; simpl; split; congruence. Qed.

Lemma get_documents_run key (w : World) :
  key <> EmptyString ->
  db_fault (oracle w) (db_calls w) = None ->
  get_documents (Some key) w =
    (bump_db w,
     Returned (json 200
       (Rows (List.filter (fun d => String.eqb (uploaded_by d) key) (documents w))))).
Proof.
  intros Hkey Hdb. apply truthy_spec in Hkey.
  unfold get_documents, db_execute. unfold_monad. rewrite Hkey, Hdb. reflexivity.
Qed.

Lemma get_api_document_run key (w : World) :
  key <> EmptyString ->
  db_fault (oracle w) (db_calls w) = None ->
  get_api_document (Some key) w =
    (bump_db w,
     Returned (json 200
       (Rows (List.filter (fun d => Sql.like ("%" +:+ key +:+ "%") (uploaded_by d))
                (documents w))))).
Proof.
  intros Hkey Hdb. apply truthy_spec in Hkey.
  unfold get_api_document, queryWithCallback, rows_or_500, db_execute. unfold_monad.
  rewrite Hkey, Hdb. reflexivity.
Qed.

(** A view writes nothing and sends nothing, whatever the key and whatever
    the database answers. *)
Lemma get_documents_pure q (w : World) :
  persistent (final (get_documents q) w) = persistent w /\
  outbox (final (get_documents q) w) = outbox w.
Proof.
  unfold final, get_documents, db_execute. unfold_monad.
  destruct (db_fault (oracle w) (db_calls w)); [split; reflexivity|].
  destruct q as [key|]; [destruct (Str.truthy key)|]; split; reflexivity.
Qed.

Lemma get_api_document_pure q (w : World) :
  persistent (final (get_api_document q) w) = persistent w /\
  outbox (final (get_api_document q) w) = outbox w.
Proof.
  unfold final, get_api_document, queryWithCallback, rows_or_500, db_execute.
  unfold_monad.
  destruct q as [key|]; [destruct (Str.truthy key)|];
    destruct (db_fault (oracle w) (db_calls w)); split; reflexivity.
Qed.

(** With an empty key, as without one, both views return the whole table. *)
Lemma views_with_an_empty_key (w : World) :
  db_fault (oracle w) (db_calls w) = None ->
  result (get_documents (Some EmptyString)) w = Returned (json 200 (Rows (documents w))) /\
  result (get_api_document (Some EmptyString)) w = Returned (json 200 (Rows (documents w))).
Proof.
  intros Hdb.
  unfold result, get_documents, get_api_document, queryWithCallback, rows_or_500, db_execute.
  unfold_monad. simpl. rewrite Hdb. split; reflexivity.
Qed.

(** C8 as stated fails. The legacy view reads its key as a pattern: asked
    for ["a_c"] it returns the document uploaded by ["abc"], which does not
    contain ["a_c"]. The modern view treats an empty key as no key: asked for
    the empty string it returns alice's document, whose uploader is not the
    empty string. *)
Lemma views_do_not_match_as_stated :
  let w := Sample.world Sample.calm in
  (result (get_api_document (Some "a_c")) w = Returned (json 200 (Rows [Sample.abc_pending])) /\
   ~ contains (uploaded_by Sample.abc_pending) "a_c") /\
  (exists rows,
     result (get_documents (Some EmptyString)) w = Returned (json 200 (Rows rows)) /\
     In Sample.alice_approved rows /\
     uploaded_by Sample.alice_approved <> EmptyString).
Proof.
  intros w. split; [split|].
  - vm_compute. reflexivity.
  - rewrite <- includes_spec. vm_compute. discriminate.
  - eexists. split; [vm_compute; reflexivity|].
    split; [left; reflexivity|discriminate].
Qed.

(** C8, amended. With the database answering: given a key that is not
    empty, the modern view returns exactly the rows whose uploader equals the
    key, and the legacy view returns exactly the rows whose uploader matches
    the pattern [%key%], which for a key free of [%], [_] and backslash are
    exactly the rows whose uploader contains the key; given the empty key, or
    no key at all, both views return every row of the table. Both views leave
    the persistent state and the outbox as they were, for every key and every
    answer of the database. *)
Theorem views_select_by_uploader (w : World) :
  (db_fault (oracle w) (db_calls w) = None ->
   (forall key, key <> EmptyString ->
      (exists rows,
         result (get_documents (Some key)) w = Returned (json 200 (Rows rows)) /\
         rows = List.filter (fun d => String.eqb (uploaded_by d) key) (documents w) /\
         forall d, In d rows <-> In d (documents w) /\ uploaded_by d = key) /\
      (exists rows,
         result (get_api_document (Some key)) w = Returned (json 200 (Rows rows)) /\
         rows = List.filter (fun d => Sql.like ("%" +:+ key +:+ "%") (uploaded_by d))
                  (documents w) /\
         (like_plain key = true ->
          rows = List.filter (fun d => Str.includes (uploaded_by d) key) (documents w) /\
          forall d, In d rows <-> In d (documents w) /\ contains (uploaded_by d) key))) /\
   (forall q, q = Some EmptyString \/ q = None ->
      result (get_documents q) w = Returned (json 200 (Rows (documents w))) /\
      result (get_api_document q) w = Returned (json 200 (Rows (documents w))))) /\
  (forall q,
     persistent (final (get_documents q) w) = persistent w /\
     outbox (final (get_documents q) w) = outbox w) /\
  (forall q,
     persistent (final (get_api_document q) w) = persistent w /\
     outbox (final (get_api_document q) w) = outbox w).
Proof.
  split; [|split].
  - intros Hdb. split.
    + intros key Hkey. split.
      * eexists. unfold result. rewrite (get_documents_run key w Hkey Hdb).
        split; [reflexivity|]. split; [reflexivity|].
        intros d. rewrite filter_In, String.eqb_eq. reflexivity.
      * eexists. unfold result. rewrite (get_api_document_run key w Hkey Hdb).
        split; [reflexivity|]. split; [reflexivity|].
        intros Hplain.
        assert (List.filter (fun d => Sql.like ("%" +:+ key +:+ "%") (uploaded_by d))
                  (documents w) =
                List.filter (fun d => Str.includes (uploaded_by d) key) (documents w)) as ->.
        { apply List.filter_ext. intros d. now apply like_includes. }
        split; [reflexivity|].
        intros d. rewrite filter_In, includes_spec. reflexivity.
    + intros q Hq.
      unfold result, get_documents, get_api_document, queryWithCallback, rows_or_500,
        db_execute.
      unfold_monad. destruct Hq as [Hq|Hq]; rewrite Hq; simpl; rewrite Hdb;
        split; reflexivity.
  - intros q. apply get_documents_pure.
  - intros q. apply get_api_document_pure.
Qed.

Lemma views_select_by_uploader_witness :
  let w := Sample.world Sample.calm in
  result (get_documents (Some "alice")) w =
    Returned (json 200 (Rows [Sample.alice_approved; Sample.alice_pending])) /\
  result (get_api_document (Some "lic")) w =
    Returned (json 200 (Rows [Sample.alice_approved; Sample.alice_pending])) /\
  (forall d, In d [Sample.alice_approved; Sample.alice_pending] <->
             In d (documents w) /\ contains (uploaded_by d) "lic") /\
  result (get_documents (Some EmptyString)) w =
    Returned (json 200 (Rows [Sample.alice_approved; Sample.alice_pending;
                              Sample.abc_pending])) /\
  result (get_api_document None) w =
    Returned (json 200 (Rows [Sample.alice_approved; Sample.alice_pending;
                              Sample.abc_pending])).
Proof.
  intros w.
  destruct (views_select_by_uploader w) as (Hviews & _).
  destruct (Hviews eq_refl) as (Hkey & Hall).
  destruct (Hkey "alice") as ((r1 & Hr1 & -> & _) & _); [discriminate|].
  destruct (Hkey "lic") as (_ & (r2 & Hr2 & -> & Hplain)); [discriminate|].
  split; [exact Hr1|]. split; [exact Hr2|].
  split; [destruct (Hplain eq_refl) as [_ Hiff]; exact Hiff|].
  split.
  - exact (proj1 (Hall (Some EmptyString) (or_introl eq_refl))).
  - exact (proj2 (Hall None (or_intror eq_refl))).
Defined.

(** ** One-time passcodes: the whole of verification, and sending *)

Lemma in_prototype_keys (key : string) :
  existsb (String.eqb key) object_prototype_keys = true <-> In key object_prototype_keys.
Proof.
  rewrite existsb_exists. split.
  - intros (k & Hk & Heq). apply String.eqb_eq in Heq. now subst.
  - intros Hk. exists key. split; [exact Hk|apply String.eqb_refl].
Qed.

(** X1. Verification answers 200 or 400 and nothing else, and it answers 200
    in exactly two situations: the candidate is a string and is the code
    stored under the email, or the candidate is absent and reading the store
    under the email yields nothing (no stored code, and not a name the store
    inherits from [Object.prototype]). A candidate that is [null] or a
    boolean never verifies. *)
Theorem verify_otp_succeeds_exactly_when addr entered (w : World) :
  let key := to_property_key addr in
  let verified := Returned (json 200 (Message "OTP verified successfully")) in
  let refused := Returned (json 400 (Message "Invalid OTP")) in
  (result (post_verify_otp addr entered) w = verified \/
   result (post_verify_otp addr entered) w = refused) /\
  (result (post_verify_otp addr entered) w = verified <->
   key <> "__proto__" /\
   ((exists code, entered = JString code /\ otpStore w !! key = Some code) \/
    (entered = JUndefined /\ otpStore w !! key = None /\
     ~ In key object_prototype_keys))).
Proof.
  intros key verified refused. subst verified refused.
  unfold result, post_verify_otp, get_property. unfold_monad. cbv beta. fold key.
  destruct (String.eqb_spec key "__proto__") as [Hproto|Hproto].
  - destruct entered; simpl; (split; [now right|]);
      (split; [discriminate|intros [Hne _]; contradiction]).
  - destruct (otpStore w !! key) as [code|] eqn:Hcode.
    + destruct entered as [| |b|cand]; simpl;
        try (split; [now right|]; split; [discriminate|];
             intros [_ [(c & Hc & _)|(Hc & Hnone & _)]]; discriminate).
      destruct (String.eqb_spec cand code) as [->|Hne]; simpl.
      * split; [now left|]. split; [|reflexivity].
        intros _. split; [exact Hproto|]. left. eauto.
      * split; [now right|]. split; [discriminate|].
        intros [_ [(c & Hc & Hs)|(Hc & _)]]; [|discriminate].
        injection Hc as <-. congruence.
    + destruct (existsb (String.eqb key) object_prototype_keys) eqn:Hin.
      * apply in_prototype_keys in Hin.
        destruct entered; simpl; (split; [now right|]); (split; [discriminate|]);
          intros [_ [(c & Hc & Hs)|(Hc & _ & Hout)]];
          try discriminate; contradiction.
      * assert (~ In key object_prototype_keys) as Hout.
        { intros Hk. apply in_prototype_keys in Hk. congruence. }
        destruct entered as [| |b|cand]; simpl.
        -- split; [now left|]. split; [|reflexivity].
           intros _. split; [exact Hproto|]. right. repeat split. exact Hout.
        -- split; [now right|]. split; [discriminate|].
           intros [_ [(c & Hc & _)|(Hc & _)]]; discriminate.
        -- split; [now right|]. split; [discriminate|].
           intros [_ [(c & Hc & _)|(Hc & _)]]; discriminate.
        -- split; [now right|]. split; [discriminate|].
           intros [_ [(c & Hc & Hs)|(Hc & _)]]; discriminate.
Qed.

(** X2. Verification touches one entry of the store at most: every other
    email keeps its code, everything outside the store stays as it was, and
    a refused verification changes nothing at all. *)
Theorem verify_otp_touches_one_entry addr entered (w : World) :
  let w' := final (post_verify_otp addr entered) w in
  (forall k, k <> to_property_key addr -> otpStore w' !! k = otpStore w !! k) /\
  w' = set_otpStore (otpStore w') w /\
  (result (post_verify_otp addr entered) w = Returned (json 400 (Message "Invalid OTP")) ->
   w' = w).
Proof.
  intros w'. subst w'. unfold final, result, post_verify_otp. unfold_monad. cbv beta.
  destruct (strict_equal entered (get_property (otpStore w) (to_property_key addr)));
    simpl.
  - split; [|split; [reflexivity|discriminate]].
    intros k Hk. now apply lookup_delete_ne.
  - split; [reflexivity|]. split; [|reflexivity].
    destruct w; reflexivity.
Qed.

Lemma verify_otp_touches_one_entry_witness :
  let w := Sample.world Sample.calm in
  final (post_verify_otp (JString "alice@example.com") (JString "000000")) w = w /\
  otpStore (final (post_verify_otp (JString "bob@example.com") JUndefined) w)
    !! "alice@example.com" = Some "123456".
Proof.
  intros w.
  destruct (verify_otp_touches_one_entry (JString "alice@example.com") (JString "000000") w)
    as (_ & _ & Hrefused).
  destruct (verify_otp_touches_one_entry (JString "bob@example.com") JUndefined w)
    as (Hother & _ & _).
  split.
  - apply Hrefused. vm_compute. reflexivity.
  - rewrite Hother; [vm_compute; reflexivity|]. vm_compute. discriminate.
Defined.

(** How [POST /send-otp] runs once the account check is behind it. *)
Lemma post_send_otp_stores otp name e (w : World) :
  Str.truthy e = true ->
  (js_truthy name = true ->
   db_fault (oracle w) (db_calls w) = None /\
   exists r, In r (users w) /\ username r = default EmptyString name /\ email r = e) ->
  exists w1,
    post_send_otp otp name (Some e) w =
      (w1, Returned match mail_fault (oracle w) (mail_calls w) with
                    | None => json 200 (Message "OTP sent successfully")
                    | Some _ => json 500 (Message "Failed to send OTP")
                    end) /\
    otpStore w1 = set_property (otpStore w) e otp /\
    outbox w1 = outbox w ++ [otp_mail (EMAIL_USER (env w)) e otp] /\
    documents w1 = documents w.
Proof.
  intros He Hname. unfold post_send_otp, db_execute, sendMail, select_user_with_email.
  unfold_monad. simpl. rewrite He. simpl.
  destruct (js_truthy name) eqn:Hn; simpl.
  - destruct (Hname eq_refl) as (Hdb & r & Hr & Hu & Hm). rewrite Hdb. simpl.
    assert (In r (List.filter
                    (fun r0 => String.eqb (username r0) (default EmptyString name)
                               && String.eqb (email r0) e) (users w))) as Hin.
    { apply filter_In. split; [exact Hr|].
      now rewrite Hu, Hm, !String.eqb_refl. }
    destruct (List.filter _ (users w)) as [|r0 rows]; [destruct Hin|]. simpl.
    destruct (mail_fault (oracle w) (mail_calls w)); simpl;
      eexists; repeat split; reflexivity.
  - destruct (mail_fault (oracle w) (mail_calls w)); simpl;
      eexists; repeat split; reflexivity.
Qed.

Lemma get_set_property store key otp :
  key <> "__proto__" -> get_property (set_property store key otp) key = PCode otp.
Proof.
  intros Hkey. apply String.eqb_neq in Hkey. unfold get_property, set_property.
  rewrite Hkey. now rewrite lookup_insert_eq.
Qed.

(** X3. A code that was sent verifies, once. After [POST /send-otp] got past
    its account check for a non-empty email other than ["__proto__"], the
    code it drew is stored under the email, whether the mail went out (200) or
    the transport failed (500 "Failed to send OTP"); verifying that email with
    that code then answers 200, and verifying a second time answers 400. *)
Theorem sent_otp_verifies_once otp name e (w : World) :
  Str.truthy e = true ->
  e <> "__proto__" ->
  (js_truthy name = true ->
   db_fault (oracle w) (db_calls w) = None /\
   exists r, In r (users w) /\ username r = default EmptyString name /\ email r = e) ->
  let w1 := final (post_send_otp otp name (Some e)) w in
  let verify := post_verify_otp (JString e) (JString otp) in
  result (post_send_otp otp name (Some e)) w =
    Returned match mail_fault (oracle w) (mail_calls w) with
             | None => json 200 (Message "OTP sent successfully")
             | Some _ => json 500 (Message "Failed to send OTP")
             end /\
  otpStore w1 !! e = Some otp /\
  result verify w1 = Returned (json 200 (Message "OTP verified successfully")) /\
  result verify (final verify w1) = Returned (json 400 (Message "Invalid OTP")).
Proof.
  intros He Hproto Hname w1 verify. subst w1 verify.
  destruct (post_send_otp_stores otp name e w He Hname) as (w1 & Hrun & Hstore & _).
  assert (final (post_send_otp otp name (Some e)) w = w1) as ->
    by (unfold final; now rewrite Hrun).
  unfold result at 1. rewrite Hrun. simpl.
  assert (otpStore w1 !! e = Some otp) as Hcode.
  { rewrite Hstore. unfold set_property.
    apply String.eqb_neq in Hproto. rewrite Hproto. apply lookup_insert_eq. }
  split; [reflexivity|]. split; [exact Hcode|].
  destruct (verify_otp_with_a_string e otp w1 Hproto) as [Hyes _].
  split.
  - unfold result. now rewrite (Hyes Hcode).
  - exact (verify_otp_only_once e otp w1 Hproto Hcode).
Qed.

Lemma sent_otp_verifies_once_witness :
  let w := Sample.world Sample.mail_down in
  let w1 := final (post_send_otp "654321" (Some "alice") (Some "alice@example.com")) w in
  result (post_send_otp "654321" (Some "alice") (Some "alice@example.com")) w =
    Returned (json 500 (Message "Failed to send OTP")) /\
  result (post_verify_otp (JString "alice@example.com") (JString "654321")) w1 =
    Returned (json 200 (Message "OTP verified successfully")).
Proof.
  intros w w1. subst w1.
  destruct (sent_otp_verifies_once "654321" (Some "alice") "alice@example.com" w)
    as (Hsend & _ & Hverify & _).
  - reflexivity.
  - discriminate.
  - intros _. split; [reflexivity|].
    exists {| username := "alice"; email := "alice@example.com" |}.
    split; [now left|split; reflexivity].
  - split; [exact Hsend|exact Hverify].
Defined.

(** X4. Sending again replaces the code. After two requests for the same
    email (no user name given), the second code is the one stored: it
    verifies, and the first, if different, is refused. *)
Theorem resent_otp_replaces_the_code otp1 otp2 e (w : World) :
  Str.truthy e = true ->
  e <> "__proto__" ->
  otp1 <> otp2 ->
  let w2 := final (post_send_otp otp2 None (Some e))
              (final (post_send_otp otp1 None (Some e)) w) in
  otpStore w2 !! e = Some otp2 /\
  result (post_verify_otp (JString e) (JString otp1)) w2 =
    Returned (json 400 (Message "Invalid OTP")) /\
  result (post_verify_otp (JString e) (JString otp2)) w2 =
    Returned (json 200 (Message "OTP verified successfully")).
Proof.
  intros He Hproto Hne w2. subst w2.
  set (w1 := final (post_send_otp otp1 None (Some e)) w).
  destruct (post_send_otp_stores otp2 None e w1 He) as (w2 & Hrun & Hstore & _);
    [discriminate|].
  assert (final (post_send_otp otp2 None (Some e)) w1 = w2) as ->
    by (unfold final; now rewrite Hrun).
  assert (otpStore w2 !! e = Some otp2) as Hcode.
  { rewrite Hstore. unfold set_property.
    apply String.eqb_neq in Hproto. rewrite Hproto. apply lookup_insert_eq. }
  split; [exact Hcode|].
  destruct (verify_otp_with_a_string e otp1 w2 Hproto) as [_ Hno].
  destruct (verify_otp_with_a_string e otp2 w2 Hproto) as [Hyes _].
  unfold result. rewrite Hno, (Hyes Hcode); [split; reflexivity|].
  rewrite Hcode. congruence.
Qed.

Lemma resent_otp_replaces_the_code_witness :
  let w2 := final (post_send_otp "222222" None (Some "bob@example.com"))
              (final (post_send_otp "111111" None (Some "bob@example.com"))
                 (Sample.world Sample.calm)) in
  result (post_verify_otp (JString "bob@example.com") (JString "111111")) w2 =
    Returned (json 400 (Message "Invalid OTP")).
Proof.
  intros w2. subst w2.
  destruct (resent_otp_replaces_the_code "111111" "222222" "bob@example.com"
              (Sample.world Sample.calm)) as (_ & Hold & _).
  - reflexivity.
  - discriminate.
  - discriminate.
  - exact Hold.
Defined.

(** X5. When [POST /send-otp] refuses, no code is stored and no mail is
    handed over. Without an email (absent or empty) the answer is 400
    "Email is required" and the world is untouched. With a user name and an
    email that no row of [users] carries together, the answer is 400
    "Username and email do not match"; if the database rejects that lookup it
    is 500 "Failed to send OTP". In both the store and the outbox are as
    before. *)
Theorem send_otp_refusals_store_nothing otp name addr (w : World) :
  let run := post_send_otp otp name addr in
  (js_truthy addr = false ->
   run w = (w, Returned (json 400 (Message "Email is required")))) /\
  (js_truthy name = true -> js_truthy addr = true ->
   db_fault (oracle w) (db_calls w) = None ->
   (forall r, In r (users w) ->
      ~ (username r = default EmptyString name /\ email r = default EmptyString addr)) ->
   run w = (bump_db w, Returned (json 400 (Message "Username and email do not match")))) /\
  (js_truthy name = true -> js_truthy addr = true ->
   forall msg, db_fault (oracle w) (db_calls w) = Some msg ->
   result run w = Returned (json 500 (Message "Failed to send OTP")) /\
   otpStore (final run w) = otpStore w /\
   outbox (final run w) = outbox w).
Proof.
  intros run. subst run.
  unfold result, final, post_send_otp, db_execute, select_user_with_email.
  unfold_monad. split; [|split].
  - intros Ha. rewrite Ha, andb_false_r. reflexivity.
  - intros Hn Ha Hdb Hnone. rewrite Hn, Ha. simpl. rewrite Hdb. simpl.
    assert (List.filter
              (fun r => String.eqb (username r) (default EmptyString name)
                        && String.eqb (email r) (default EmptyString addr))
              (users w) = []) as ->; [|reflexivity].
    induction (users w) as [|r us IH]; simpl; [reflexivity|].
    destruct (String.eqb_spec (username r) (default EmptyString name)) as [Hu|_]; simpl.
    + destruct (String.eqb_spec (email r) (default EmptyString addr)) as [Hm|_].
      * exfalso. apply (Hnone r); [now left|]. now split.
      * apply IH. intros r' Hr'. apply Hnone. now right.
    + apply IH. intros r' Hr'. apply Hnone. now right.
  - intros Hn Ha msg Hdb. rewrite Hn, Ha. simpl. rewrite Hdb. simpl. repeat split.
Qed.

Lemma send_otp_refusals_store_nothing_witness :
  let w := Sample.world Sample.calm in
  post_send_otp "111111" (Some "alice") None w =
    (w, Returned (json 400 (Message "Email is required"))) /\
  result (post_send_otp "111111" (Some "alice") (Some "mallory@example.com")) w =
    Returned (json 400 (Message "Username and email do not match")).
Proof.
  intros w.
  destruct (send_otp_refusals_store_nothing "111111" (Some "alice") None w)
    as (Hmissing & _ & _).
  destruct (send_otp_refusals_store_nothing "111111" (Some "alice")
              (Some "mallory@example.com") w) as (_ & Hmismatch & _).
  split.
  - apply Hmissing. reflexivity.
  - unfold result. rewrite Hmismatch; [reflexivity|reflexivity|reflexivity|reflexivity|].
    intros r Hr [_ Hm]. simpl in Hr. destruct Hr as [<-|[]]. discriminate Hm.
Defined.

(** ** Uploads that fail, and what a successful one leaves behind *)

(** The four ways an accepted upload can go, by the first service that
    rejects a call; [temp] is the file multer wrote. *)
Lemma post_upload_outcomes req (w : World) :
  fileFilter (originalname req) = None ->
  read_local (temp_path req w) w = None ->
  let w' := final (post_upload req) w in
  let temp := {| local_path := temp_path req w; bytes := content req |} in
  let stored := drive_file_of req w in
  match drive_fault (oracle w) (drive_calls w),
        drive_fault (oracle w) (S (drive_calls w)),
        db_fault (oracle w) (db_calls w) with
  | Some msg, _, _ =>
    result (post_upload req) w =
      Returned (json 500 (ErrorDetail "Document upload failed" msg)) /\
    documents w' = documents w /\ auto_increment w' = auto_increment w /\
    drive w' = drive w /\ uploads w' = uploads w ++ [temp] /\ outbox w' = outbox w
  | None, Some msg, _ =>
    result (post_upload req) w =
      Returned (json 500 (ErrorDetail "Document upload failed" msg)) /\
    documents w' = documents w /\ auto_increment w' = auto_increment w /\
    drive w' = drive w ++ [stored] /\ uploads w' = uploads w ++ [temp] /\
    outbox w' = outbox w
  | None, None, Some msg =>
    result (post_upload req) w =
      Returned (json 500 (ErrorDetail "Document upload failed" msg)) /\
    documents w' = documents w /\ auto_increment w' = auto_increment w /\
    drive w' = map (make_public (file_id stored)) (drive w ++ [stored]) /\
    uploads w' = uploads w ++ [temp] /\ outbox w' = outbox w
  | None, None, None =>
    result (post_upload req) w =
      Returned (json 200 (SuccessMessage "Document uploaded to Google Drive and saved")) /\
    documents w' = documents w ++ [uploaded_row req w] /\
    auto_increment w' = auto_increment w + 1 /\
    drive w' = map (make_public (file_id stored)) (drive w ++ [stored]) /\
    uploads w' = uploads w /\
    exists notice, outbox w' = outbox w ++ [notice] /\ to notice = [APPROVER_EMAIL (env w)]
  end.
Proof.
  intros Hpdf Hfresh w' temp stored. subst w' temp stored.
  unfold read_local in Hfresh.
  destruct (List.find (fun f => String.eqb (local_path f) (temp_path req w)) (uploads w))
    as [f|] eqn:Hfind; [discriminate|]. clear Hfresh.
  assert (write_local (temp_path req w) (content req) (uploads w) =
          uploads w ++ [{| local_path := temp_path req w; bytes := content req |}])
    as Hwrite.
  { unfold write_local. f_equal.
    now apply (filter_negb_fresh (fun f => String.eqb (local_path f) (temp_path req w))). }
  unfold final, result, post_upload. rewrite Hpdf.
  unfold upload_handler, drive_files_create, drive_permissions_create, db_execute,
    fs_unlinkSync, read_local, drive_file_of.
  unfold_monad. simpl. fold (temp_path req w).
  rewrite find_written. simpl.
  destruct (drive_fault (oracle w) (drive_calls w)) as [m1|]; simpl;
    [rewrite ?Hwrite; repeat split|].
  destruct (drive_fault (oracle w) (S (drive_calls w))) as [m2|]; simpl;
    [rewrite ?Hwrite; repeat split|].
  destruct (db_fault (oracle w) (db_calls w)) as [m3|]; simpl;
    [rewrite ?Hwrite; repeat split|].
  match goal with
  | |- context [sendEmailNotification ?a ?b ?c ?w0] =>
    destruct (sendEmailNotification_run a b c w0) as (line & m & -> & Hto)
  end.
  simpl. rewrite find_written. simpl. repeat split.
  - rewrite unlink_written.
    now apply (filter_negb_fresh (fun f => String.eqb (local_path f) (temp_path req w))).
  - exists m. split; [reflexivity|exact Hto].
Qed.

(** X6. When Drive rejects the creation of the file, the upload answers 500
    "Document upload failed" with Drive's message as detail; no row is
    inserted, Drive holds nothing new, no mail is handed over, and the
    temporary file multer wrote stays under [uploads/]. *)
Theorem upload_rejected_by_drive_leaves_the_temp_file req (w : World) msg :
  fileFilter (originalname req) = None ->
  read_local (temp_path req w) w = None ->
  drive_fault (oracle w) (drive_calls w) = Some msg ->
  let w' := final (post_upload req) w in
  result (post_upload req) w =
    Returned (json 500 (ErrorDetail "Document upload failed" msg)) /\
  documents w' = documents w /\
  drive w' = drive w /\
  outbox w' = outbox w /\
  uploads w' = uploads w ++ [{| local_path := temp_path req w; bytes := content req |}].
Proof.
  intros Hpdf Hfresh Hdrive w'. subst w'.
  pose proof (post_upload_outcomes req w Hpdf Hfresh) as H. simpl in H.
  rewrite Hdrive in H. destruct H as (Hres & Hdocs & _ & Hdr & Hup & Hout).
  repeat split; assumption.
Qed.

Lemma upload_rejected_by_drive_leaves_the_temp_file_witness :
  let w := Sample.world Outage.drive_down in
  documents (final (post_upload Sample.pdf_upload) w) = documents w /\
  uploads (final (post_upload Sample.pdf_upload) w) =
    [{| local_path := "uploads/1700000002123-Report.PDF"; bytes := "%PDF-1.7" |}].
Proof.
  intros w.
  destruct (upload_rejected_by_drive_leaves_the_temp_file Sample.pdf_upload w
              "The user's Drive storage quota has been exceeded.")
    as (_ & Hdocs & _ & _ & Hup).
  - vm_compute. reflexivity.
  - vm_compute. reflexivity.
  - reflexivity.
  - split; [exact Hdocs|]. rewrite Hup. vm_compute. reflexivity.
Defined.

(** X7. When Drive took the file and the INSERT is rejected, the upload
    answers 500 and inserts no row, but the file stays in Drive, readable by
    anyone and holding the uploaded bytes: an object no document points to.
    No mail is handed over and the temporary file stays. *)
Theorem upload_rejected_by_database_leaves_a_drive_file req (w : World) msg :
  fileFilter (originalname req) = None ->
  read_local (temp_path req w) w = None ->
  drive_fault (oracle w) (drive_calls w) = None ->
  drive_fault (oracle w) (S (drive_calls w)) = None ->
  db_fault (oracle w) (db_calls w) = Some msg ->
  let w' := final (post_upload req) w in
  result (post_upload req) w =
    Returned (json 500 (ErrorDetail "Document upload failed" msg)) /\
  documents w' = documents w /\
  outbox w' = outbox w /\
  uploads w' = uploads w ++ [{| local_path := temp_path req w; bytes := content req |}] /\
  exists f, In f (drive w') /\
            file_id f = drive_file_id (oracle w) (drive_calls w) /\
            media f = content req /\
            anyone_reader f = true.
Proof.
  intros Hpdf Hfresh Hd1 Hd2 Hdb w'. subst w'.
  pose proof (post_upload_outcomes req w Hpdf Hfresh) as H. simpl in H.
  rewrite Hd1, Hd2, Hdb in H. destruct H as (Hres & Hdocs & _ & Hdr & Hup & Hout).
  repeat (split; [assumption|]).
  rewrite Hdr. eexists. split.
  { apply in_map, in_or_app. right. left. reflexivity. }
  unfold make_public, drive_file_of. simpl. rewrite String.eqb_refl. repeat split.
Qed.

Lemma upload_rejected_by_database_leaves_a_drive_file_witness :
  let w := Sample.world (Outage.db_lost_after 0) in
  documents (final (post_upload Sample.pdf_upload) w) = documents w /\
  exists f, In f (drive (final (post_upload Sample.pdf_upload) w)) /\
            media f = "%PDF-1.7" /\ anyone_reader f = true.
Proof.
  intros w.
  destruct (upload_rejected_by_database_leaves_a_drive_file Sample.pdf_upload w
              "Connection lost")
    as (_ & Hdocs & _ & _ & f & Hf & _ & Hmedia & Hpub).
  - vm_compute. reflexivity.
  - vm_compute. reflexivity.
  - reflexivity.
  - reflexivity.
  - reflexivity.
  - split; [exact Hdocs|]. exists f.
    split; [exact Hf|split; [exact Hmedia|exact Hpub]].
Defined.

(** X8. A successful upload puts the uploaded bytes in Drive under the name
    clock-originalname, in the shared folder, as [application/pdf] and
    readable by anyone; it removes the temporary file again, and it hands the
    transporter exactly one message, addressed to APPROVER_EMAIL. *)
Theorem successful_upload_stores_the_bytes_and_cleans_up req (w : World) :
  fileFilter (originalname req) = None ->
  read_local (temp_path req w) w = None ->
  result (post_upload req) w =
    Returned (json 200 (SuccessMessage "Document uploaded to Google Drive and saved")) ->
  let w' := final (post_upload req) w in
  (exists f, In f (drive w') /\
             file_id f = drive_file_id (oracle w) (drive_calls w) /\
             drive_name f = pretty (clock w) +:+ "-" +:+ originalname req /\
             parents f = [SHAREDDRIVE (env w)] /\
             mimeType f = "application/pdf" /\
             media f = content req /\
             anyone_reader f = true) /\
  List.length (drive w') = S (List.length (drive w)) /\
  uploads w' = uploads w /\
  exists notice, outbox w' = outbox w ++ [notice] /\ to notice = [APPROVER_EMAIL (env w)].
Proof.
  intros Hpdf Hfresh Hok w'. subst w'.
  pose proof (post_upload_outcomes req w Hpdf Hfresh) as H. simpl in H.
  destruct (drive_fault (oracle w) (drive_calls w));
    [destruct H as [H _]; rewrite H in Hok; discriminate|].
  destruct (drive_fault (oracle w) (S (drive_calls w)));
    [destruct H as [H _]; rewrite H in Hok; discriminate|].
  destruct (db_fault (oracle w) (db_calls w));
    [destruct H as [H _]; rewrite H in Hok; discriminate|].
  destruct H as (_ & _ & _ & Hdr & Hup & Hout).
  split; [|split; [|split; assumption]].
  - rewrite Hdr. eexists. split.
    { apply in_map, in_or_app. right. left. reflexivity. }
    unfold make_public, drive_file_of. simpl. rewrite String.eqb_refl. repeat split.
  - rewrite Hdr, List.length_map, List.length_app. simpl. lia.
Qed.

Lemma successful_upload_stores_the_bytes_and_cleans_up_witness :
  let w := Sample.world Sample.calm in
  uploads (final (post_upload Sample.pdf_upload) w) = [] /\
  List.length (drive (final (post_upload Sample.pdf_upload) w)) = 1%nat.
Proof.
  intros w.
  destruct (successful_upload_stores_the_bytes_and_cleans_up Sample.pdf_upload w)
    as (_ & Hlen & Hup & _).
  - vm_compute. reflexivity.
  - vm_compute. reflexivity.
  - vm_compute. reflexivity.
  - split; [exact Hup|exact Hlen].
Defined.

(** ** What a request can do to the table of documents *)

Lemma post_send_otp_tables otp name addr (w : World) :
  documents (final (post_send_otp otp name addr) w) = documents w /\
  auto_increment (final (post_send_otp otp name addr) w) = auto_increment w.
Proof.
  unfold final, post_send_otp, db_execute, sendMail, select_user_with_email.
  unfold_monad. simpl.
  destruct (js_truthy name && js_truthy addr); simpl.
  - destruct (db_fault (oracle w) (db_calls w)); simpl; [split; reflexivity|].
    destruct (List.filter _ (users w)); simpl; [split; reflexivity|].
    destruct (negb (js_truthy addr)); simpl; [split; reflexivity|].
    destruct (mail_fault (oracle w) (mail_calls w)); split; reflexivity.
  - destruct (negb (js_truthy addr)); simpl; [split; reflexivity|].
    destruct (mail_fault (oracle w) (mail_calls w)); split; reflexivity.
Qed.

Lemma post_verify_otp_tables addr entered (w : World) :
  documents (final (post_verify_otp addr entered) w) = documents w /\
  auto_increment (final (post_verify_otp addr entered) w) = auto_increment w.
Proof.
  unfold final, post_verify_otp. unfold_monad. cbv beta.
  destruct (strict_equal _ _); split; reflexivity.
Qed.

(** The two ordered views write nothing and send nothing. *)
Lemma get_api_documents_pure (w : World) :
  persistent (final get_api_documents w) = persistent w /\
  outbox (final get_api_documents w) = outbox w.
Proof.
  unfold final, get_api_documents, queryWithCallback, rows_or_500, db_execute.
  unfold_monad.
  destruct (db_fault (oracle w) (db_calls w)); split; reflexivity.
Qed.

Lemma get_api_approved_documents_pure (w : World) :
  persistent (final get_api_approved_documents w) = persistent w /\
  outbox (final get_api_approved_documents w) = outbox w.
Proof.
  unfold final, get_api_approved_documents, db_execute. unfold_monad.
  destruct (db_fault (oracle w) (db_calls w)); split; reflexivity.
Qed.

Lemma persistent_tables (w w' : World) :
  persistent w' = persistent w ->
  documents w' = documents w /\ auto_increment w' = auto_increment w.
Proof. unfold persistent. intros [= -> _ -> _ _ _]. split; reflexivity. Qed.

(** An upload adds the row of [uploaded_row] and moves the counter, or
    leaves both alone. *)
Lemma post_upload_tables req (w : World) :
  let w' := final (post_upload req) w in
  (documents w' = documents w /\ auto_increment w' = auto_increment w) \/
  (documents w' = documents w ++ [uploaded_row req w] /\
   auto_increment w' = auto_increment w + 1).
Proof.
  intros w'. subst w'. unfold final, post_upload.
  destruct (fileFilter (originalname req)); [left; split; reflexivity|].
  unfold upload_handler, drive_files_create, drive_permissions_create, db_execute,
    fs_unlinkSync.
  unfold_monad. simpl.
  set (path := "uploads/" +:+ pretty (clock w) +:+ "-" +:+ originalname req).
  unfold read_local. simpl. rewrite find_written. simpl.
  destruct (drive_fault (oracle w) (drive_calls w)); simpl; [left; split; reflexivity|].
  destruct (drive_fault (oracle w) (S (drive_calls w))); simpl;
    [left; split; reflexivity|].
  destruct (db_fault (oracle w) (db_calls w)); simpl; [left; split; reflexivity|].
  match goal with
  | |- context [sendEmailNotification ?a ?b ?c ?w0] =>
    destruct (sendEmailNotification_run a b c w0) as (line & m & -> & _)
  end.
  simpl. rewrite find_written. simpl.
  right. split; reflexivity.
Qed.

(** Every request leaves the table as it was, or applies the UPDATE of an
    approval or of a review to it, or appends the row of an upload. *)
Lemma route_tables (r : Request) (w : World) :
  let w' := final (route r) w in
  (documents w' = documents w /\ auto_increment w' = auto_increment w) \/
  (exists key st who t,
     documents w' =
       map (fun d => if Sql.with_id key d then Sql.set_approval st who t d else d)
           (documents w) /\
     auto_increment w' = auto_increment w) \/
  (exists u st who t,
     documents w' =
       map (fun d => if Sql.reviewable u d then Sql.set_review st who t d else d)
           (documents w) /\
     auto_increment w' = auto_increment w) \/
  (exists req,
     documents w' = documents w ++ [uploaded_row req w] /\
     auto_increment w' = auto_increment w + 1).
Proof.
  intros w'. subst w'. destruct r; simpl.
  - left. apply post_send_otp_tables.
  - left. apply post_verify_otp_tables.
  - left. apply persistent_tables, get_api_documents_pure.
  - left. apply persistent_tables, get_api_document_pure.
  - destruct (post_upload_tables req w) as [H|H]; [now left|].
    right. right. right. now exists req.
  - left. apply persistent_tables, get_documents_pure.
  - destruct (db_fault (oracle w) (db_calls w)) as [msg|] eqn:Hdb.
    + left. unfold final. rewrite (put_api_approve_rejected _ _ _ _ _ Hdb).
      split; reflexivity.
    + right. left.
      destruct (put_api_approve_committed key decision approver w Hdb) as [Hdocs Helse].
      exists key, decision, approver, (ist_now w). split; [exact Hdocs|].
      unfold elsewhere in Helse. now injection Helse.
  - left. apply persistent_tables, get_api_approved_documents_pure.
  - destruct (db_fault (oracle w) (db_calls w)) as [msg|] eqn:Hdb.
    + left. unfold final. rewrite (put_api_review_rejected _ _ _ _ _ Hdb).
      split; reflexivity.
    + right. right. left.
      destruct (put_api_review_committed who decision reviewed_by w Hdb)
        as (Hdocs & Helse & _).
      exists who, decision, reviewed_by, (clock w). split; [exact Hdocs|].
      unfold elsewhere in Helse. now injection Helse.
Qed.

(** ** Invariants of every run *)

Section Updates.

Context (p : Document -> bool) (f : Document -> Document).

Lemma map_update_columns {C} (col : Document -> C) (l : list Document) :
  (forall d, col (f d) = col d) ->
  map col (map (fun d => if p d then f d else d) l) = map col l.
Proof.
  intros Hcol. rewrite map_map. apply map_ext. intros d.
  destruct (p d); [apply Hcol|reflexivity].
Qed.

Lemma Forall_update (P : Document -> Prop) (l : list Document) :
  (forall d, p d = true -> P d -> P (f d)) ->
  Forall P l -> Forall P (map (fun d => if p d then f d else d) l).
Proof.
  intros Hf Hl. induction Hl as [|d l Hd Hl IH]; simpl; constructor; [|exact IH].
  destruct (p d) eqn:Hp; [now apply Hf|exact Hd].
Qed.

End Updates.

Lemma keys_fresh_step (r : Request) (w : World) :
  keys_fresh w -> keys_fresh (final (route r) w).
Proof.
  unfold keys_fresh. intros [Hdup Hlt].
  pose proof (route_tables r w) as Hstep. cbv zeta in Hstep.
  destruct Hstep
    as [[Hdocs Hai]|[(key & st & who & t & Hdocs & Hai)|
        [(u & st & who & t & Hdocs & Hai)|(req & Hdocs & Hai)]]]; rewrite Hdocs, Hai.
  - now split.
  - split.
    + now rewrite map_update_columns by reflexivity.
    + apply Forall_update; [|exact Hlt]. intros d _ Hd. exact Hd.
  - split.
    + now rewrite map_update_columns by reflexivity.
    + apply Forall_update; [|exact Hlt]. intros d _ Hd. exact Hd.
  - split.
    + rewrite map_app. simpl. apply NoDup_app. split; [exact Hdup|]. split.
      * intros k Hk Hin. apply list_elem_of_singleton in Hin.
        apply list_elem_of_In, in_map_iff in Hk as (d & Hid & Hd).
        rewrite List.Forall_forall in Hlt. specialize (Hlt d Hd). lia.
      * apply NoDup_singleton.
    + apply Forall_app. split.
      * eapply Forall_impl; [exact Hlt|]. simpl. intros d Hd. lia.
      * constructor; [simpl; lia|constructor].
Qed.

(** X9. Keys stay distinct. If the keys of [documents] are pairwise distinct
    and below the counter of the table, they still are after any sequence of
    requests, whatever the services answer. *)
Theorem keys_stay_distinct (rs : list (Z * Request)) (w : World) :
  keys_fresh w -> keys_fresh (serve rs w).
Proof.
  revert w. induction rs as [|[t r] rs IH]; intros w Hw; simpl; [exact Hw|].
  apply IH. apply keys_fresh_step. exact Hw.
Qed.

Lemma keys_stay_distinct_witness :
  keys_fresh
    (serve [(1700000003000, POST_upload Sample.pdf_upload);
            (1700000004000, PUT_api_approve 4 "Approved" "bob");
            (1700000005000, POST_upload Sample.pdf_upload)]
       (Sample.world Sample.calm)).
Proof.
  apply keys_stay_distinct. split.
  - apply (bool_decide_unpack _). vm_compute. reflexivity.
  - simpl. repeat constructor.
Defined.

(** An approval keeps a row consistent whatever it writes as status and
    approver, because it writes a time. *)
Lemma consistent_after_approval (d d' : Document) :
  identity_columns d' = identity_columns d ->
  review_columns d' = review_columns d ->
  approval_time d' <> None ->
  row_consistent d -> row_consistent d'.
Proof.
  unfold identity_columns, review_columns, row_consistent.
  intros Hid Hrev Htime (Hlink & Hup & _ & Hrt & _).
  injection Hid as _ _ Hl _ Hu. injection Hrev as Hrs Hrv Hrtm.
  rewrite Hl, Hu, Hrs, Hrv, Hrtm.
  split; [exact Hlink|]. split; [exact Hup|].
  split; [intros Hnone; now contradiction Htime|].
  split; [exact Hrt|]. intros _. exact Htime.
Qed.

(** A review of an Approved row keeps it consistent whatever it writes as
    status and reviewer. *)
Lemma consistent_after_review (d d' : Document) :
  identity_columns d' = identity_columns d ->
  approval_columns d' = approval_columns d ->
  review_time d' <> None ->
  approval_status d = "Approved" ->
  row_consistent d -> row_consistent d'.
Proof.
  unfold identity_columns, approval_columns, row_consistent.
  intros Hid Happ Htime Happroved (Hlink & Hup & Hat & _ & _).
  injection Hid as _ _ Hl _ Hu. injection Happ as Has Hab Hatm.
  rewrite Hl, Hu, Has, Hab, Hatm.
  split; [exact Hlink|]. split; [exact Hup|].
  split; [exact Hat|].
  split; [intros Hnone; now contradiction Htime|].
  intros _ Hnone. destruct (Hat Hnone) as [Hpending _].
  rewrite Happroved in Hpending. discriminate Hpending.
Qed.

Lemma row_consistent_step (r : Request) (w : World) :
  Forall row_consistent (documents w) ->
  Forall row_consistent (documents (final (route r) w)).
Proof.
  intros Hrows.
  pose proof (route_tables r w) as Hstep. cbv zeta in Hstep.
  destruct Hstep
    as [[Hdocs _]|[(key & st & who & t & Hdocs & _)|
        [(u & st & who & t & Hdocs & _)|(req & Hdocs & _)]]]; rewrite Hdocs.
  - exact Hrows.
  - apply Forall_update; [|exact Hrows].
    intros d _ Hd.
    apply (consistent_after_approval d); [reflexivity|reflexivity|discriminate|exact Hd].
  - apply Forall_update; [|exact Hrows].
    intros d Hsel Hd.
    apply reviewable_spec in Hsel as [_ Happroved].
    apply (consistent_after_review d);
      [reflexivity|reflexivity|discriminate|exact Happroved|exact Hd].
  - apply Forall_app. split; [exact Hrows|]. constructor; [|constructor].
    unfold row_consistent, uploaded_row. simpl.
    repeat split; try discriminate; try reflexivity. intros H. now contradiction H.
Qed.

(** X10. No review without an approval. Call a row consistent when it has a
    link and an upload time, a row without [approval_time] is Pending with no
    approver, a row without [review_time] has [review_status] Pending and no
    reviewer, and a row with a [review_time] has an [approval_time]. The
    approver and the reviewer a request names play no part: the times are
    the server's own. If every row is consistent, every row still is after
    any sequence of requests, whatever the services answer. *)
Theorem rows_stay_consistent (rs : list (Z * Request)) (w : World) :
  Forall row_consistent (documents w) ->
  Forall row_consistent (documents (serve rs w)).
Proof.
  revert w. induction rs as [|[t r] rs IH]; intros w Hw; simpl; [exact Hw|].
  apply IH. apply row_consistent_step. exact Hw.
Qed.

Lemma rows_stay_consistent_witness :
  Forall row_consistent
    (documents
       (serve [(1700000003000, PUT_api_review "alice" "Rejected" "carol");
               (1700000004000, PUT_api_approve 3 "Unapproved" "bob");
               (1700000005000, POST_upload Sample.pdf_upload);
               (1700000006000, PUT_api_approve 1 "Pending" "bob")]
          Archive.world)).
Proof.
  apply rows_stay_consistent.
  repeat constructor; try discriminate; intros H; try discriminate H;
    now contradiction H.
Defined.

Lemma identity_columns_step (r : Request) (w : World) :
  exists added,
    map identity_columns (documents (final (route r) w)) =
    map identity_columns (documents w) ++ added.
Proof.
  pose proof (route_tables r w) as Hstep. cbv zeta in Hstep.
  destruct Hstep
    as [[Hdocs _]|[(key & st & who & t & Hdocs & _)|
        [(u & st & who & t & Hdocs & _)|(req & Hdocs & _)]]]; rewrite Hdocs.
  - exists []. now rewrite app_nil_r.
  - exists []. rewrite app_nil_r. now apply map_update_columns.
  - exists []. rewrite app_nil_r. now apply map_update_columns.
  - eexists. apply map_app.
Qed.

(** X11. Documents are never deleted, reordered or renamed. After any
    sequence of requests the table starts with the rows it had, in the same
    order and with the same [id], [document_name], [document_link],
    [uploaded_by] and [upload_time]; whatever else there is was appended. *)
Theorem documents_are_only_appended (rs : list (Z * Request)) (w : World) :
  exists added,
    map identity_columns (documents (serve rs w)) =
    map identity_columns (documents w) ++ added.
Proof.
  revert w. induction rs as [|[t r] rs IH]; intros w; simpl.
  - exists []. now rewrite app_nil_r.
  - destruct (IH (final (route r) (at_time t w))) as [later Hlater].
    destruct (identity_columns_step r (at_time t w)) as [now_ Hnow].
    exists (now_ ++ later). rewrite Hlater, Hnow. simpl. now rewrite app_assoc.
Qed.

(** X12. An approval writes the approval columns only and a review the
    review columns only: under every answer of the services, an approval
    leaves [review_status], [reviewer] and [review_time] of every row as they
    were, and a review leaves [approval_status], [approved_by] and
    [approval_time] of every row as they were. *)
Theorem approval_and_review_keep_to_their_columns (w : World) :
  (forall key decision approver,
     map review_columns (documents (final (put_api_approve key decision approver) w)) =
     map review_columns (documents w)) /\
  (forall who decision reviewed_by,
     map approval_columns (documents (final (put_api_review who decision reviewed_by) w)) =
     map approval_columns (documents w)).
Proof.
  split.
  - intros key decision approver.
    destruct (db_fault (oracle w) (db_calls w)) as [msg|] eqn:Hdb.
    + unfold final. now rewrite (put_api_approve_rejected _ _ _ _ _ Hdb).
    + destruct (put_api_approve_committed key decision approver w Hdb) as [-> _].
      now apply map_update_columns.
  - intros who decision reviewed_by. rewrite put_api_review_documents.
    destruct (db_fault (oracle w) (db_calls w)); [reflexivity|].
    now apply map_update_columns.
Qed.

(** ** Approval, once more *)

Lemma update_the_only_row (f : Document -> Document) key (l : list Document)
    (i : nat) (d : Document) :
  NoDup (map id l) -> l !! i = Some d -> id d = key ->
  map (fun x => if Sql.with_id key x then f x else x) l = <[i := f d]> l.
Proof.
  intros Hdup. revert i. induction l as [|x l IH]; intros i Hi Hkey; [discriminate|].
  simpl in Hdup. apply NoDup_cons in Hdup as [Hx Hdup].
  destruct i as [|i]; simpl in *.
  - injection Hi as ->. apply with_id_spec in Hkey. rewrite Hkey. f_equal.
    apply update_none. apply filter_nil_find, no_row_with_id.
    intros y Hy Hid. apply Hx. apply list_elem_of_In, in_map_iff.
    exists y. apply with_id_spec in Hkey. split; [congruence|exact Hy].
  - destruct (Sql.with_id key x) eqn:Hxk.
    + exfalso. apply Hx. apply with_id_spec in Hxk.
      apply list_elem_of_In, in_map_iff. exists d. split; [congruence|].
      apply list_elem_of_In, list_elem_of_lookup. eauto.
    + f_equal. now apply IH.
Qed.

(** X13. With distinct keys an approval rewrites one row. If the keys of the
    table are pairwise distinct and the row at position [i] has the key of the
    request, then, the UPDATE being answered, the table after the request is
    the table before it with that one position replaced by a row that has the
    decision as [approval_status], the approver of the request as
    [approved_by] and the time of the request as [approval_time], and the
    other columns of the old row. *)
Theorem approval_rewrites_one_row key decision approver (w : World)
    (i : nat) (d : Document) :
  NoDup (map id (documents w)) ->
  db_fault (oracle w) (db_calls w) = None ->
  documents w !! i = Some d ->
  id d = key ->
  exists d',
    documents (final (put_api_approve key decision approver) w) =
      <[i := d']> (documents w) /\
    approval_status d' = decision /\
    approved_by d' = Some approver /\
    approval_time d' = Some (ist_now w) /\
    identity_columns d' = identity_columns d /\
    review_columns d' = review_columns d.
Proof.
  intros Hdup Hdb Hi Hkey.
  destruct (put_api_approve_committed key decision approver w Hdb) as [-> _].
  exists (Sql.set_approval decision approver (ist_now w) d).
  split; [now apply update_the_only_row|]. repeat split.
Qed.

Lemma approval_rewrites_one_row_witness :
  exists d',
    documents (final (put_api_approve 2 "Approved" "bob") (Sample.world Sample.calm)) =
      [Sample.alice_approved; d'; Sample.abc_pending] /\
    approval_columns d' = ("Approved", Some "bob", Some 1700019802000) /\
    identity_columns d' = identity_columns Sample.alice_pending /\
    review_columns d' = ("Pending", None, None).
Proof.
  destruct (approval_rewrites_one_row 2 "Approved" "bob" (Sample.world Sample.calm)
              1%nat Sample.alice_pending)
    as (d' & Hdocs & Hst & Hby & Htime & Hid & Hrev).
  - apply (bool_decide_unpack _). vm_compute. reflexivity.
  - reflexivity.
  - reflexivity.
  - reflexivity.
  - exists d'. split; [exact Hdocs|]. split; [|split; [exact Hid|exact Hrev]].
    unfold approval_columns. rewrite Hst, Hby, Htime. reflexivity.
Defined.

(** X14. When the database answers the UPDATE of an approval and rejects the
    SELECT that follows it, the new status stays written although the
    response is 500 "Internal server error", and no notification is handed to
    the transporter: the document is still in the table with its other
    columns, and every row with the key has the decision as
    [approval_status], the approver of the request as [approved_by] and the
    time of the request as [approval_time]. *)
Theorem approval_stays_written_when_the_select_fails key decision approver (w : World)
    (d : Document) msg :
  db_fault (oracle w) (db_calls w) = None ->
  db_fault (oracle w) (S (db_calls w)) = Some msg ->
  In d (documents w) ->
  id d = key ->
  let w' := final (put_api_approve key decision approver) w in
  result (put_api_approve key decision approver) w =
    Returned (json 500 (ErrorBody "Internal server error")) /\
  (exists d',
     In d' (documents w') /\
     identity_columns d' = identity_columns d /\
     review_columns d' = review_columns d /\
     approval_status d' = decision /\
     approved_by d' = Some approver /\
     approval_time d' = Some (ist_now w)) /\
  (forall d',
     In d' (documents w') -> id d' = key ->
     approval_status d' = decision /\
     approved_by d' = Some approver /\
     approval_time d' = Some (ist_now w)) /\
  outbox w' = outbox w.
Proof.
  intros Hupd Hsel Hd Hkey w'. subst w'.
  assert (List.filter (Sql.with_id key) (documents w) <> []) as Hrows.
  { intros Hnil. assert (In d (List.filter (Sql.with_id key) (documents w))) as Hin.
    { apply filter_In. split; [exact Hd|now apply with_id_spec]. }
    rewrite Hnil in Hin. destruct Hin. }
  destruct (put_api_approve_committed key decision approver w Hupd) as [Hdocs _].
  split; [|split; [|split]].
  - unfold result, put_api_approve, db_execute. unfold_monad.
    simpl. rewrite Hupd. simpl.
    destruct (List.filter (Sql.with_id key) (documents w)); [congruence|].
    simpl. rewrite Hsel. reflexivity.
  - eexists. split.
    + rewrite Hdocs. apply in_map_iff. exists d. split; [|exact Hd].
      apply with_id_spec in Hkey. rewrite Hkey. reflexivity.
    + repeat split.
  - intros d' Hin Hid. rewrite Hdocs in Hin.
    exact (in_after_approval _ _ _ _ _ _ Hin Hid).
  - unfold final, put_api_approve, db_execute. unfold_monad.
    simpl. rewrite Hupd. simpl.
    destruct (List.filter (Sql.with_id key) (documents w)); [congruence|].
    simpl. rewrite Hsel. reflexivity.
Qed.

Lemma approval_stays_written_when_the_select_fails_witness :
  let w := Sample.world (Outage.db_lost_after 1) in
  result (put_api_approve 2 "Approved" "bob") w =
    Returned (json 500 (ErrorBody "Internal server error")) /\
  exists d',
    In d' (documents (final (put_api_approve 2 "Approved" "bob") w)) /\
    identity_columns d' = identity_columns Sample.alice_pending /\
    approval_columns d' = ("Approved", Some "bob", Some 1700019802000).
Proof.
  intros w.
  destruct (approval_stays_written_when_the_select_fails 2 "Approved" "bob" w
              Sample.alice_pending "Connection lost")
    as (Hres & (d' & Hin & Hid & _ & Hst & Hby & Htime) & _).
  - reflexivity.
  - reflexivity.
  - right. left. reflexivity.
  - reflexivity.
  - split; [exact Hres|]. exists d'. split; [exact Hin|]. split; [exact Hid|].
    unfold approval_columns. rewrite Hst, Hby, Htime. reflexivity.
Defined.

(** X15. A rejected UPDATE changes nothing. When the database rejects the
    UPDATE of an approval or of a review, the response is a 500, the
    persistent state is as before and no message is handed to the
    transporter. *)
Theorem rejected_update_changes_nothing (w : World) msg :
  db_fault (oracle w) (db_calls w) = Some msg ->
  (forall key decision approver,
     let run := put_api_approve key decision approver in
     result run w = Returned (json 500 (ErrorBody "Internal server error")) /\
     persistent (final run w) = persistent w /\
     outbox (final run w) = outbox w) /\
  (forall who decision reviewed_by,
     let run := put_api_review who decision reviewed_by in
     result run w = Returned (json 500 (ErrorBody "Failed to update review status.")) /\
     persistent (final run w) = persistent w /\
     outbox (final run w) = outbox w).
Proof.
  intros Hdb. split.
  - intros key decision approver run. subst run. unfold result, final.
    rewrite (put_api_approve_rejected _ _ _ _ _ Hdb). repeat split.
  - intros who decision reviewed_by run. subst run. unfold result, final.
    rewrite (put_api_review_rejected _ _ _ _ _ Hdb). repeat split.
Qed.

Lemma rejected_update_changes_nothing_witness :
  let w := Sample.world (Outage.db_lost_after 0) in
  documents (final (put_api_review "alice" "Approved" "carol") w) = documents w /\
  outbox (final (put_api_approve 1 "Unapproved" "bob") w) = [].
Proof.
  intros w.
  destruct (rejected_update_changes_nothing w "Connection lost") as [Happrove Hreview];
    [reflexivity|].
  destruct (Hreview "alice" "Approved" "carol") as (_ & Hsame & _).
  destruct (Happrove 1 "Unapproved" "bob") as (_ & _ & Hout).
  split; [|exact Hout].
  exact (f_equal (fun p => fst (fst (fst (fst (fst p))))) Hsame).
Defined.

(** X16. A review always notifies, and words the subject by exact
    comparison. Once the UPDATE is answered the handler hands the transporter
    exactly one message, to the uploader's address and APPROVER_EMAIL, even
    when no row qualified; the subject is the Approved one only for the
    decision "Approved" and the Rejected one for every other string. *)
Theorem review_always_notifies who decision reviewed_by (w : World) :
  db_fault (oracle w) (db_calls w) = None ->
  exists m,
    outbox (final (put_api_review who decision reviewed_by) w) = outbox w ++ [m] /\
    to m = [sender_address w (S (db_calls w)) who; APPROVER_EMAIL (env w)] /\
    (decision = "Approved" -> subject m = "✅ Document Reviewed & Approved") /\
    (decision <> "Approved" -> subject m = "❌ Document Reviewed & Rejected").
Proof.
  intros Hdb.
  destruct (put_api_review_committed who decision reviewed_by w Hdb) as (_ & _ & Hout & _).
  eexists. split; [exact Hout|]. split; [reflexivity|]. simpl. split.
  - intros ->. reflexivity.
  - intros Hne. apply String.eqb_neq in Hne. now rewrite Hne.
Qed.

Lemma review_always_notifies_witness :
  exists m,
    outbox (final (put_api_review "nobody" "approved" "carol") (Sample.world Sample.calm))
      = [m] /\
    to m = [None; Some "approver@example.com"] /\
    subject m = "❌ Document Reviewed & Rejected".
Proof.
  destruct (review_always_notifies "nobody" "approved" "carol" (Sample.world Sample.calm))
    as (m & Hout & Hto & _ & Hno); [reflexivity|].
  exists m. split; [exact Hout|]. split; [exact Hto|]. apply Hno. discriminate.
Defined.

(** ** The ordered views *)

Lemma insert_desc_perm d (l : list Document) : Permutation (insert_desc d l) (d :: l).
Proof.
  induction l as [|x l IH]; simpl; [reflexivity|].
  destruct (id x <? id d); [reflexivity|].
  rewrite IH. apply perm_swap.
Qed.

Lemma order_by_id_desc_perm (l : list Document) : Permutation (order_by_id_desc l) l.
Proof.
  induction l as [|d l IH]; simpl; [reflexivity|].
  rewrite insert_desc_perm. now rewrite IH.
Qed.

Lemma insert_desc_sorted d (l : list Document) :
  StronglySorted newest_first l -> StronglySorted newest_first (insert_desc d l).
Proof.
  intros Hl. induction Hl as [|x l Hl IH Hx]; simpl.
  - repeat constructor.
  - destruct (id x <? id d) eqn:Hlt.
    + apply Z.ltb_lt in Hlt. constructor; [now constructor|].
      constructor; [unfold newest_first; lia|].
      eapply List.Forall_impl; [|exact Hx]. unfold newest_first. intros y Hy. lia.
    + apply Z.ltb_ge in Hlt. constructor; [exact IH|].
      rewrite List.Forall_forall. intros y Hy.
      apply (Permutation_in _ (insert_desc_perm d l)) in Hy as [<-|Hy];
        [exact Hlt|].
      rewrite List.Forall_forall in Hx. now apply Hx.
Qed.

Lemma order_by_id_desc_sorted (l : list Document) :
  StronglySorted newest_first (order_by_id_desc l).
Proof.
  induction l as [|d l IH]; simpl; [constructor|]. now apply insert_desc_sorted.
Qed.

(** X17. The list of all documents is the table, newest first. When the
    database answers, [GET /api/documents] returns the rows of the table,
    each as often as it is there, ordered by descending [id]; it writes
    nothing and sends nothing, whatever the database answers. *)
Theorem all_documents_newest_first (w : World) :
  (db_fault (oracle w) (db_calls w) = None ->
   exists rows,
     result get_api_documents w = Returned (json 200 (Rows rows)) /\
     Permutation rows (documents w) /\
     StronglySorted newest_first rows) /\
  persistent (final get_api_documents w) = persistent w /\
  outbox (final get_api_documents w) = outbox w.
Proof.
  split; [|apply get_api_documents_pure].
  intros Hdb. exists (order_by_id_desc (documents w)).
  split; [|split; [apply order_by_id_desc_perm|apply order_by_id_desc_sorted]].
  unfold result, get_api_documents, queryWithCallback, rows_or_500, db_execute,
    select_all_desc.
  unfold_monad. now rewrite Hdb.
Qed.

Lemma all_documents_newest_first_witness :
  exists rows,
    result get_api_documents (Sample.world Sample.calm) = Returned (json 200 (Rows rows)) /\
    Permutation rows [Sample.alice_approved; Sample.alice_pending; Sample.abc_pending] /\
    StronglySorted newest_first rows.
Proof.
  destruct (all_documents_newest_first (Sample.world Sample.calm)) as [Hrows _].
  exact (Hrows eq_refl).
Defined.

(** X18. The reviewer's queue holds the Approved rows and no other. When the
    database answers, [GET /api/approved-documents] returns exactly the rows
    whose [approval_status] is the string "Approved", each as often as it is
    in the table, ordered by descending [id]; it writes nothing. *)
Theorem approved_queue_is_the_approved_rows (w : World) :
  (db_fault (oracle w) (db_calls w) = None ->
   exists rows,
     result get_api_approved_documents w = Returned (json 200 (Rows rows)) /\
     Permutation rows
       (List.filter (fun d => String.eqb (approval_status d) "Approved") (documents w)) /\
     (forall d, In d rows <-> In d (documents w) /\ approval_status d = "Approved") /\
     StronglySorted newest_first rows) /\
  persistent (final get_api_approved_documents w) = persistent w /\
  outbox (final get_api_approved_documents w) = outbox w.
Proof.
  split; [|apply get_api_approved_documents_pure].
  intros Hdb.
  set (approved := List.filter (fun d => String.eqb (approval_status d) "Approved")
                     (documents w)).
  exists (order_by_id_desc approved).
  split; [|split; [apply order_by_id_desc_perm|split; [|apply order_by_id_desc_sorted]]].
  - unfold result, get_api_approved_documents, db_execute, select_approved_desc.
    unfold_monad. now rewrite Hdb.
  - intros d. split.
    + intros Hd. apply (Permutation_in _ (order_by_id_desc_perm approved)) in Hd.
      apply filter_In in Hd as [Hd Hst]. apply String.eqb_eq in Hst. now split.
    + intros [Hd Hst].
      apply (Permutation_in _ (Permutation_sym (order_by_id_desc_perm approved))).
      apply filter_In. split; [exact Hd|]. now apply String.eqb_eq.
Qed.

Lemma approved_queue_is_the_approved_rows_witness :
  exists rows,
    result get_api_approved_documents (Sample.world Sample.calm) =
      Returned (json 200 (Rows rows)) /\
    Permutation rows [Sample.alice_approved].
Proof.
  destruct (approved_queue_is_the_approved_rows (Sample.world Sample.calm)) as [Hrows _].
  destruct (Hrows eq_refl) as (rows & Hres & Hperm & _).
  exists rows. split; [exact Hres|exact Hperm].
Defined.

(** X19. An approval decides membership of the reviewer's queue. After an
    approval whose UPDATE was answered, the queue read next (the database
    answering) lists the document with its new approval columns if the
    decision was "Approved", and lists no row with that key if the decision
    was any other string. *)
Theorem approval_decides_the_queue key decision approver (w : World) (d : Document) :
  db_fault (oracle w) (db_calls w) = None ->
  In d (documents w) ->
  id d = key ->
  let w1 := final (put_api_approve key decision approver) w in
  db_fault (oracle w1) (db_calls w1) = None ->
  exists rows,
    result get_api_approved_documents w1 = Returned (json 200 (Rows rows)) /\
    (decision = "Approved" ->
     In (Sql.set_approval decision approver (ist_now w) d) rows) /\
    (decision <> "Approved" -> forall d', In d' rows -> id d' <> key).
Proof.
  intros Hupd Hd Hkey w1 Hread.
  destruct (approved_queue_is_the_approved_rows w1) as [Hrows _].
  destruct (Hrows Hread) as (rows & Hres & _ & Hiff & _).
  exists rows. split; [exact Hres|].
  assert (documents w1 =
          map (fun d => if Sql.with_id key d
                        then Sql.set_approval decision approver (ist_now w) d else d)
              (documents w)) as Hdocs
    by apply (put_api_approve_committed key decision approver w Hupd).
  split.
  - intros ->. apply Hiff. split; [|reflexivity].
    rewrite Hdocs. apply in_map_iff. exists d. split; [|exact Hd].
    apply with_id_spec in Hkey. now rewrite Hkey.
  - intros Hne d' Hd' Hid. apply Hiff in Hd' as [Hd' Hst].
    rewrite Hdocs in Hd'.
    destruct (in_after_approval key decision approver (ist_now w) _ d' Hd' Hid)
      as [Hdec _].
    congruence.
Qed.

Lemma approval_decides_the_queue_witness :
  let w := Sample.world Sample.calm in
  (exists rows,
     result get_api_approved_documents (final (put_api_approve 2 "Approved" "bob") w) =
       Returned (json 200 (Rows rows)) /\
     In (Sql.set_approval "Approved" "bob" 1700019802000 Sample.alice_pending) rows) /\
  (exists rows,
     result get_api_approved_documents (final (put_api_approve 1 "Unapproved" "bob") w) =
       Returned (json 200 (Rows rows)) /\
     forall d', In d' rows -> id d' <> 1).
Proof.
  intros w. split.
  - destruct (approval_decides_the_queue 2 "Approved" "bob" w Sample.alice_pending)
      as (rows & Hres & Hyes & _).
    + reflexivity.
    + right. left. reflexivity.
    + reflexivity.
    + reflexivity.
    + exists rows. split; [exact Hres|]. now apply Hyes.
  - destruct (approval_decides_the_queue 1 "Unapproved" "bob" w Sample.alice_approved)
      as (rows & Hres & _ & Hno).
    + reflexivity.
    + left. reflexivity.
    + reflexivity.
    + reflexivity.
    + exists rows. split; [exact Hres|]. apply Hno. discriminate.
Defined.

(** X20. The views report a database error in two ways. When the database
    rejects the query, the two legacy views answer 500 with the error object
    itself as the body, while the modern view and the reviewer's queue answer
    500 with a fixed message that does not mention the error. *)
Theorem views_report_a_database_error (w : World) msg :
  db_fault (oracle w) (db_calls w) = Some msg ->
  (forall q, result (get_api_document q) w = Returned (json 500 (SentError (JsError msg)))) /\
  result get_api_documents w = Returned (json 500 (SentError (JsError msg))) /\
  (forall q, result (get_documents q) w =
             Returned (json 500 (ErrorBody "Error fetching documents"))) /\
  result get_api_approved_documents w =
    Returned (json 500 (ErrorBody "Failed to fetch approved documents")).
Proof.
  intros Hdb.
  unfold result, get_api_document, get_api_documents, get_documents,
    get_api_approved_documents, queryWithCallback, rows_or_500, db_execute.
  unfold_monad. repeat split.
  - intros [key|]; [destruct (Str.truthy key)|]; now rewrite Hdb.
  - now rewrite Hdb.
  - intros q. now rewrite Hdb.
  - now rewrite Hdb.
Qed.

Lemma views_report_a_database_error_witness :
  let w := Sample.world (Outage.db_lost_after 0) in
  result (get_api_document (Some "alice")) w =
    Returned (json 500 (SentError (JsError "Connection lost"))) /\
  result (get_documents (Some "alice")) w =
    Returned (json 500 (ErrorBody "Error fetching documents")).
Proof.
  intros w.
  destruct (views_report_a_database_error w "Connection lost") as (Hlegacy & _ & Hmodern & _);
    [reflexivity|].
  split; [apply Hlegacy|apply Hmodern].
Defined.

(** X21. Without a key, or with the empty key, both filtered views return
    the whole table in table order. *)
Theorem views_without_a_key_return_the_table q (w : World) :
  js_truthy q = false ->
  db_fault (oracle w) (db_calls w) = None ->
  result (get_documents q) w = Returned (json 200 (Rows (documents w))) /\
  result (get_api_document q) w = Returned (json 200 (Rows (documents w))).
Proof.
  intros Hq Hdb.
  unfold result, get_documents, get_api_document, queryWithCallback, rows_or_500, db_execute.
  unfold_monad.
  destruct q as [key|]; simpl in Hq; [rewrite Hq|]; simpl; rewrite Hdb; split; reflexivity.
Qed.

Lemma views_without_a_key_return_the_table_witness :
  result (get_documents None) (Sample.world Sample.calm) =
    Returned (json 200 (Rows (documents (Sample.world Sample.calm)))) /\
  result (get_api_document (Some EmptyString)) (Sample.world Sample.calm) =
    Returned (json 200 (Rows (documents (Sample.world Sample.calm)))).
Proof.
  split.
  - apply (views_without_a_key_return_the_table None); reflexivity.
  - apply (views_without_a_key_return_the_table (Some EmptyString)); reflexivity.
Defined.

(** ** The address lookup *)

Lemma lookup_email_none name (us : list User) :
  lookup_email name us = None <-> forall r, In r us -> username r <> name.
Proof.
  unfold lookup_email. split.
  - intros Hnone r Hr Hname.
    assert (In r (List.filter (fun r => String.eqb (username r) name) us)) as Hin.
    { apply filter_In. split; [exact Hr|]. now apply String.eqb_eq. }
    destruct (List.filter _ us); [destruct Hin|discriminate].
  - intros Hall.
    destruct (List.filter (fun r => String.eqb (username r) name) us) as [|r rows] eqn:Hf;
      [reflexivity|].
    assert (In r (List.filter (fun r => String.eqb (username r) name) us)) as Hin
      by (rewrite Hf; now left).
    apply filter_In in Hin as [Hr Hname]. apply String.eqb_eq in Hname.
    now destruct (Hall r Hr).
Qed.

(** X22. The address lookup never throws. [getUserEmailByUsername] always
    returns; it returns [null] exactly when the database rejects the query or
    no user has the name, and otherwise the address of a user with that name;
    it changes nothing that persists and sends nothing. *)
Theorem address_lookup_never_throws name (w : World) :
  exists w' address,
    getUserEmailByUsername name w = (w', Returned address) /\
    persistent w' = persistent w /\ outbox w' = outbox w /\
    (address = None <->
     db_fault (oracle w) (db_calls w) <> None \/
     forall r, In r (users w) -> username r <> name) /\
    (forall a, address = Some a ->
               exists r, In r (users w) /\ username r = name /\ email r = a).
Proof.
  rewrite getUserEmailByUsername_run.
  destruct (db_fault (oracle w) (db_calls w)) as [msg|].
  - do 2 eexists. split; [reflexivity|]. repeat split; try discriminate.
    intros _. now left.
  - do 2 eexists. split; [reflexivity|]. split; [reflexivity|]. split; [reflexivity|].
    split.
    + rewrite lookup_email_none. split; [now right|]. intros [H|H]; [congruence|exact H].
    + intros a Ha. unfold lookup_email in Ha.
      destruct (List.filter (fun r => String.eqb (username r) name) (users w))
        as [|r rows] eqn:Hf; [discriminate|].
      injection Ha as <-. exists r.
      assert (In r (List.filter (fun r => String.eqb (username r) name) (users w))) as Hin
        by (rewrite Hf; now left).
      apply filter_In in Hin as [Hr Hname]. apply String.eqb_eq in Hname. now repeat split.
Qed.

(** ** Which names pass the filter *)

Lemma rev_chars_spec (s : string) (acc : list ascii) :
  Str.rev_chars s acc = List.rev (chars s) ++ acc.
Proof.
  revert acc. induction s as [|c s IH]; intros acc; simpl; [reflexivity|].
  rewrite IH, <- List.app_assoc. reflexivity.
Qed.

Lemma chars_app (a b : string) : chars (a +:+ b) = chars a ++ chars b.
Proof. induction a as [|c a IH]; simpl; [reflexivity|now rewrite IH]. Qed.

Lemma length_chars (s : string) : List.length (chars s) = String.length s.
Proof. induction s as [|c s IH]; simpl; [reflexivity|now rewrite IH]. Qed.

Lemma substring_all (b : string) : String.substring 0 (String.length b) b = b.
Proof. induction b as [|c b IH]; simpl; [reflexivity|now rewrite IH]. Qed.

Lemma substring_suffix (a b : string) :
  String.substring (String.length a) (String.length b) (a +:+ b) = b.
Proof.
  induction a as [|c a IH]; [apply substring_all|exact IH].
Qed.

Lemma scan_plain (l rest : list ascii) (i e : Z) :
  Forall plain_char l -> e <> -1 ->
  Path.scan (l ++ rest) i (reading e) = Path.scan rest (i - Z.of_nat (List.length l)) (reading e).
Proof.
  intros Hl He. revert i. induction Hl as [|c l [Hdot Hslash] Hl IH]; intros i.
  - simpl. f_equal. lia.
  - cbn [app Path.scan].
    apply Ascii.eqb_neq in Hdot, Hslash. rewrite Hslash, Hdot.
    apply Z.eqb_neq in He. cbn. rewrite He. cbn.
    rewrite IH. f_equal. rewrite Nat2Z.inj_succ. lia.
Qed.

Lemma scan_first (c : ascii) (rest : list ascii) (i : Z) :
  plain_char c ->
  Path.scan (c :: rest) i Path.scan0 = Path.scan rest (i - 1) (reading (i + 1)).
Proof.
  intros [Hdot Hslash]. apply Ascii.eqb_neq in Hdot, Hslash.
  cbn [Path.scan]. rewrite Hslash, Hdot. reflexivity.
Qed.

Lemma scan_dot (rest : list ascii) (j e : Z) :
  e <> -1 ->
  Path.scan ("."%char :: rest) j (reading e) = Path.scan rest (j - 1) (past_dot j e 0).
Proof.
  intros He. apply Z.eqb_neq in He. cbn. rewrite He. reflexivity.
Qed.

Lemma scan_stem (l : list ascii) (i j e p : Z) :
  Forall (fun c => c <> "/"%char) l -> j <> -1 -> e <> -1 ->
  p = 1 \/ p = -1 \/ l <> [] ->
  exists p', Path.scan l i (past_dot j e p) = past_dot j e p' /\ (p' = 1 \/ p' = -1).
Proof.
  intros Hl Hj He. revert i p. induction Hl as [|c l Hslash Hl IH]; intros i p Hp.
  - exists p. split; [reflexivity|]. destruct Hp as [Hp|[Hp|Hp]]; auto. congruence.
  - apply Ascii.eqb_neq in Hslash. cbn [Path.scan]. rewrite Hslash.
    apply Z.eqb_neq in Hj, He. unfold past_dot.
    cbn [Path.startDot Path.end_ Path.preDotState Path.matchedSlash Path.startPart].
    rewrite He.
    cbn [Path.startDot Path.end_ Path.preDotState Path.matchedSlash Path.startPart].
    rewrite Hj. cbn [negb].
    destruct (Ascii.eqb c "."); [destruct (p =? 1) eqn:Hp1; cbn [negb]|].
    + apply Z.eqb_eq in Hp1. subst p. apply IH. now left.
    + apply IH. now left.
    + apply IH. right. now left.
Qed.

Lemma lower_char_plain (c x : ascii) :
  Str.lower_char c = x -> plain_char x -> plain_char c.
Proof.
  intros Hc [Hdot Hslash]. split; intros ->; vm_compute in Hc; congruence.
Qed.

Lemma pdf_extension_plain (ext : string) :
  Str.toLowerCase ext = "pdf" -> Forall plain_char (chars ext) /\ String.length ext = 3%nat.
Proof.
  destruct ext as [|c1 [|c2 [|c3 [|c4 ext]]]]; simpl; try discriminate.
  intros [= H1 H2 H3]. split; [|reflexivity].
  repeat constructor;
    first [ apply (lower_char_plain _ _ H1) | apply (lower_char_plain _ _ H2)
          | apply (lower_char_plain _ _ H3) ];
    split; discriminate.
Qed.

(** The extension of stem.ext, for a stem without separator and an
    extension without dot or separator. *)
Lemma extname_of_stem_and_extension (stem ext : string) :
  stem <> EmptyString ->
  Forall (fun c => c <> "/"%char) (chars stem) ->
  ext <> EmptyString ->
  Forall plain_char (chars ext) ->
  Path.extname (stem +:+ "." +:+ ext) = "." +:+ ext.
Proof.
  intros Hstem Hslash Hext Hplain. unfold Path.extname.
  rewrite rev_chars_spec, app_nil_r, !chars_app, List.rev_app_distr.
  change (chars ".") with ["."%char]. rewrite List.rev_app_distr. simpl List.rev.
  rewrite <- List.app_assoc. simpl app.
  set (n := String.length (stem +:+ "." +:+ ext)).
  assert (Z.of_nat n = Z.of_nat (String.length stem) + 1 + Z.of_nat (String.length ext))
    as Hn.
  { subst n. rewrite <- !length_chars, !chars_app, !List.length_app. simpl. lia. }
  clearbody n.
  assert (List.rev (chars ext) <> []) as Hne.
  { destruct ext as [|c ext]; [congruence|]. simpl. now destruct (List.rev (chars ext)). }
  destruct (List.rev (chars ext)) as [|c l] eqn:Hrev; [congruence|].
  assert (Forall plain_char (c :: l)) as Hcl.
  { rewrite <- Hrev. now apply Forall_rev. }
  assert (List.length (c :: l) = String.length ext) as Hlen.
  { rewrite <- Hrev, List.length_rev. apply length_chars. }
  apply Forall_cons in Hcl as [Hc Hl].
  simpl app. rewrite scan_first by exact Hc.
  rewrite scan_plain by (try exact Hl; lia).
  rewrite scan_dot by lia.
  destruct (scan_stem (List.rev (chars stem))
              (Z.of_nat n - 1 - 1 - Z.of_nat (List.length l) - 1)
              (Z.of_nat n - 1 - 1 - Z.of_nat (List.length l))
              (Z.of_nat n - 1 + 1) 0) as (p & -> & Hp).
  - now apply Forall_rev.
  - simpl in Hlen. lia.
  - lia.
  - right. right. destruct stem as [|a stem]; [congruence|]. simpl.
    now destruct (List.rev (chars stem)).
  - unfold past_dot.
    cbn [Path.startDot Path.end_ Path.preDotState Path.matchedSlash Path.startPart].
    simpl in Hlen.
    replace (Z.of_nat n - 1 - 1 - Z.of_nat (List.length l))
      with (Z.of_nat (String.length stem)) by lia.
    replace (Z.of_nat n - 1 + 1) with (Z.of_nat n) by lia.
    assert ((Z.of_nat (String.length stem) =? -1) = false) as -> by (apply Z.eqb_neq; lia).
    assert ((Z.of_nat n =? -1) = false) as -> by (apply Z.eqb_neq; lia).
    assert ((p =? 0) = false) as -> by (apply Z.eqb_neq; lia).
    assert ((Z.of_nat (String.length stem) =? Z.of_nat n - 1) = false) as ->
      by (apply Z.eqb_neq; lia).
    rewrite andb_false_r. cbn [orb andb].
    unfold Str.slice. rewrite Nat2Z.id.
    replace (Z.to_nat (Z.of_nat n - Z.of_nat (String.length stem)))
      with (S (String.length ext)) by lia.
    exact (substring_suffix stem ("." +:+ ext)).
Qed.

(** X23. Every name of the form stem.pdf passes the filter: the stem is not
    empty and has no separator, and the extension is [pdf] in any mix of upper
    and lower case. *)
Theorem pdf_names_pass_the_filter (stem ext : string) :
  stem <> EmptyString ->
  Forall (fun c => c <> "/"%char) (chars stem) ->
  Str.toLowerCase ext = "pdf" ->
  fileFilter (stem +:+ "." +:+ ext) = None.
Proof.
  intros Hstem Hslash Hpdf.
  destruct (pdf_extension_plain ext Hpdf) as [Hplain Hlen].
  unfold fileFilter. rewrite extname_of_stem_and_extension; try assumption.
  - change (Str.toLowerCase ("." +:+ ext)) with (String "." (Str.toLowerCase ext)).
    rewrite Hpdf. reflexivity.
  - intros ->. discriminate.
Qed.

(** The invariant of the scan, from any point to its end. *)
Lemma scan_settles (l suf : list ascii) (st : Path.Scan) :
  scanned st l suf ->
  settled (Path.scan l (Z.of_nat (List.length l) - 1) st) (List.rev l ++ suf).
Proof.
  revert suf st. induction l as [|c l IH]; intros suf st [Hopen Hset].
  - simpl. intros He. destruct (Hset He) as (_ & body & tail & -> & Htail & Hend & Hdot).
    exists body, tail. repeat split; try assumption; simpl in *; lia.
  - cbn [Path.scan]. simpl List.rev. rewrite <- List.app_assoc. simpl app.
    replace (Z.of_nat (List.length (c :: l)) - 1) with (Z.of_nat (List.length l))
      by (simpl; lia).
    replace (Z.of_nat (List.length l) - 1 + 1) with (Z.of_nat (List.length l)) by lia.
    destruct (Ascii.eqb_spec c "/") as [->|Hc].
    + destruct (Path.matchedSlash st) eqn:Hms; cbn [negb].
      * (* a trailing separator *)
        replace (Z.of_nat (List.length l)) with (Z.of_nat (List.length l) - 1 + 1) at 1
          by lia.
        assert (Path.end_ st = -1) as He.
        { destruct (Z.eq_dec (Path.end_ st) (-1)) as [He|He]; [exact He|].
          destruct (Hset He) as [Hfalse _]. congruence. }
        destruct (Hopen He) as (Hsuf & Hsd & _).
        replace (Z.of_nat (List.length l) - 1 + 1 - 1) with (Z.of_nat (List.length l) - 1)
          by lia.
        apply IH. split; [|congruence].
        intros _. repeat split; try assumption. constructor; [reflexivity|exact Hsuf].
      * (* a separator before the last component: stop *)
        intros He. cbn in He.
        destruct (Hset He) as (_ & body & tail & -> & Htail & Hend & Hdot).
        exists (List.rev l ++ "/"%char :: body), tail. cbn.
        rewrite <- List.app_assoc. simpl. repeat split; try assumption.
        -- rewrite List.length_app, List.length_rev. simpl in *. lia.
        -- simpl in *. lia.
        -- simpl in *. lia.
    + apply IH. clear IH. apply Ascii.eqb_neq in Hc.
      destruct (Z.eqb_spec (Path.end_ st) (-1)) as [He|He].
      * destruct (Hopen He) as (Hsuf & Hsd & _).
        cbn [Path.startDot Path.end_ Path.matchedSlash Path.preDotState Path.startPart].
        rewrite Hsd. change (-1 =? -1) with true. cbn [negb].
        destruct (Ascii.eqb c "."); unfold scanned;
          cbn [Path.startDot Path.end_ Path.matchedSlash Path.preDotState Path.startPart];
          (split; [intros; lia|]); intros _;
          (split; [reflexivity|]); exists [c], suf;
          cbn [app List.length]; repeat split; try assumption; try lia.
      * destruct (Hset He) as (Hms & body & tail & -> & Htail & Hend & Hdot).
        assert (scanned st l (c :: body ++ tail)) as Hst.
        { split; [congruence|]. intros _. split; [exact Hms|].
          exists (c :: body), tail. simpl in *. repeat split; try assumption; lia. }
        destruct (Ascii.eqb c ".").
        -- destruct (Z.eqb_spec (Path.startDot st) (-1)) as [Hsd|Hsd].
           ++ unfold scanned.
              cbn [Path.startDot Path.end_ Path.matchedSlash Path.preDotState Path.startPart].
              split; [congruence|]. intros _. split; [exact Hms|].
              exists (c :: body), tail. cbn [app List.length] in *.
              repeat split; try assumption; lia.
           ++ destruct (negb (Path.preDotState st =? 1)); [|exact Hst].
              destruct Hst as [Ha Hb]. split; exact Ha || exact Hb.
        -- destruct (negb (Path.startDot st =? -1)); [|exact Hst].
           destruct Hst as [Ha Hb]. split; exact Ha || exact Hb.
Qed.

Lemma chars_of_list (l : list ascii) : chars (string_of_list_ascii l) = l.
Proof. induction l as [|c l IH]; simpl; [reflexivity|now rewrite IH]. Qed.

Lemma chars_inj (a b : string) : chars a = chars b -> a = b.
Proof.
  revert b. induction a as [|c a IH]; intros [|d b]; simpl; try discriminate;
    [reflexivity|].
  intros [= -> H]. f_equal. now apply IH.
Qed.

Lemma substring_prefix (h t : string) :
  String.substring 0 (String.length h) (h +:+ t) = h.
Proof. induction h as [|c h IH]; simpl; [now destruct t|now rewrite IH]. Qed.

Lemma split_at (h t : string) (n : nat) :
  (n <= String.length h)%nat ->
  exists a, h = a +:+ String.substring n (String.length h - n) (h +:+ t).
Proof.
  revert h. induction n as [|n IH]; intros h Hn.
  - exists EmptyString. rewrite Nat.sub_0_r, substring_prefix. reflexivity.
  - destruct h as [|c h]; simpl in Hn; [lia|].
    destruct (IH h ltac:(lia)) as [a Ha].
    exists (String c a).
    change (String c h =
            String c (a +:+ String.substring n (String.length h - n) (h +:+ t))).
    f_equal. exact Ha.
Qed.

Lemma append_assoc (a b c : string) : (a +:+ b) +:+ c = a +:+ (b +:+ c).
Proof.
  induction a as [|x a IH]; [reflexivity|].
  change (String x ((a +:+ b) +:+ c) = String x (a +:+ (b +:+ c))). now rewrite IH.
Qed.

(** X24. Only names that end in .pdf pass the filter: a name the filter
    accepts is some stem, then a dot and [pdf] in any mix of case, then
    nothing but separators. *)
Theorem accepted_names_end_in_pdf (name : string) :
  fileFilter name = None ->
  exists stem ext tail,
    name = stem +:+ ext +:+ tail /\
    Str.toLowerCase ext = ".pdf" /\
    Forall slash (chars tail).
Proof.
  unfold fileFilter. destruct (String.eqb_spec (Str.toLowerCase (Path.extname name)) ".pdf")
    as [Hpdf|]; [intros _|discriminate].
  unfold Path.extname in Hpdf. rewrite rev_chars_spec, app_nil_r in Hpdf.
  assert (settled (Path.scan (List.rev (chars name))
                     (Z.of_nat (String.length name) - 1) Path.scan0) (chars name)) as Hst.
  { rewrite <- (List.rev_involutive (chars name)) at 2.
    rewrite <- (app_nil_r (List.rev (List.rev (chars name)))).
    rewrite <- length_chars, <- List.length_rev.
    apply scan_settles. split; [|intros H; now contradiction H].
    intros _. repeat split. constructor. }
  set (st := Path.scan _ _ _) in *.
  destruct (Z.eqb_spec (Path.startDot st) (-1)) as [|Hsd]; [discriminate|].
  destruct (Z.eqb_spec (Path.end_ st) (-1)) as [|He]; [discriminate|].
  cbn [orb] in Hpdf.
  destruct (_ || _) in Hpdf; [discriminate|].
  destruct (Hst He) as (head & tail & Hname & Htail & Hend & Hdot).
  specialize (Hdot Hsd).
  set (h := string_of_list_ascii head). set (t := string_of_list_ascii tail).
  assert (name = h +:+ t) as Hsplit.
  { apply chars_inj. rewrite chars_app. subst h t. now rewrite !chars_of_list. }
  assert (String.length h = List.length head) as Hlen.
  { subst h. now rewrite <- length_chars, chars_of_list. }
  destruct (split_at h t (Z.to_nat (Path.startDot st))) as [a Ha]; [lia|].
  exists a, (Str.slice (Path.startDot st) (Path.end_ st) name), t.
  split; [|split; [exact Hpdf|subst t; now rewrite chars_of_list]].
  unfold Str.slice.
  replace (Z.to_nat (Path.end_ st - Path.startDot st))
    with (String.length h - Z.to_nat (Path.startDot st))%nat by lia.
  rewrite Hsplit at 2. rewrite <- append_assoc, <- Ha. exact Hsplit.
Qed.

Lemma pdf_names_pass_the_filter_witness :
  fileFilter "Annual.Report.PdF" = None.
Proof.
  apply (pdf_names_pass_the_filter "Annual.Report" "PdF").
  - discriminate.
  - repeat constructor; discriminate.
  - reflexivity.
Defined.

Lemma accepted_names_end_in_pdf_witness :
  exists stem ext tail,
    "scan.PDF//" = stem +:+ ext +:+ tail /\
    Str.toLowerCase ext = ".pdf" /\
    Forall slash (chars tail).
Proof.
  apply accepted_names_end_in_pdf. vm_compute. reflexivity.
Defined.

(** ** From upload to review *)

(** X25. The life of a document. After a successful upload, an approval of
    the key the table handed out with the decision "Approved", and a review of
    the uploader's documents (the database answering both UPDATEs), the row
    the upload appended has the key, name, link, uploader and upload time of
    the upload, is Approved by the approver at the time of the approval, and
    carries the decision of the review, the reviewer and the time of the
    review. If the keys were distinct and below the counter, the approval left
    the approval columns of every earlier row alone. *)
Theorem uploaded_document_gets_approved_and_reviewed req approver decision reviewed_by
    (w : World) :
  let w1 := final (post_upload req) w in
  let w2 := final (put_api_approve (auto_increment w) "Approved" approver) w1 in
  let w3 := final (put_api_review (uploadedBy req) decision reviewed_by) w2 in
  result (post_upload req) w =
    Returned (json 200 (SuccessMessage "Document uploaded to Google Drive and saved")) ->
  db_fault (oracle w1) (db_calls w1) = None ->
  db_fault (oracle w2) (db_calls w2) = None ->
  (exists d',
     documents w3 !! List.length (documents w) = Some d' /\
     identity_columns d' =
       (auto_increment w, originalname req,
        Some ("https://drive.google.com/uc?id=" +:+
              drive_file_id (oracle w) (drive_calls w)),
        uploadedBy req, Some (ist_now w)) /\
     approval_columns d' = ("Approved", Some approver, Some (ist_now w1)) /\
     review_columns d' = (decision, Some reviewed_by, Some (clock w2))) /\
  (keys_fresh w ->
   forall (j : nat) d,
     documents w !! j = Some d ->
     approval_columns <$> documents w2 !! j = Some (approval_columns d)).
Proof.
  intros w1 w2 w3 Hok Hdb1 Hdb2.
  assert (documents w1 = documents w ++ [uploaded_row req w]) as Hdocs1.
  { destruct (fileFilter (originalname req)) as [err|] eqn:Hpdf.
    - unfold result, post_upload in Hok. rewrite Hpdf in Hok. discriminate.
    - destruct (post_upload_accepted req w Hpdf) as (w' & resp & Hrun & Hcases).
      unfold result in Hok. rewrite Hrun in Hok. injection Hok as ->.
      subst w1. unfold final. rewrite Hrun. simpl.
      destruct (drive_fault (oracle w) (drive_calls w));
        [destruct Hcases as [H _]; discriminate|].
      destruct (drive_fault (oracle w) (S (drive_calls w)));
        [destruct Hcases as [H _]; discriminate|].
      destruct (db_fault (oracle w) (db_calls w));
        [destruct Hcases as [H _]; discriminate|].
      apply Hcases. }
  assert (documents w2 =
          map (fun d => if Sql.with_id (auto_increment w) d
                        then Sql.set_approval "Approved" approver (ist_now w1) d else d)
              (documents w1)) as Hdocs2
    by apply (put_api_approve_committed _ _ _ w1 Hdb1).
  split.
  - exists (Sql.set_review decision reviewed_by (clock w2)
              (Sql.set_approval "Approved" approver (ist_now w1) (uploaded_row req w))).
    split; [|repeat split].
    subst w3. rewrite put_api_review_documents, Hdb2.
    assert (documents w2 !! List.length (documents w) =
            Some (Sql.set_approval "Approved" approver (ist_now w1) (uploaded_row req w)))
      as Hrow.
    { rewrite Hdocs2.
      erewrite update_lookup;
        [|rewrite Hdocs1; apply list_lookup_middle; reflexivity].
      unfold Sql.with_id, uploaded_row. simpl. now rewrite Z.eqb_refl. }
    erewrite update_lookup; [|exact Hrow].
    unfold Sql.reviewable. simpl. now rewrite String.eqb_refl.
  - intros [_ Hlt] j d Hj. rewrite Hdocs2.
    erewrite update_lookup; [|rewrite Hdocs1; apply lookup_app_l_Some; exact Hj].
    simpl. f_equal.
    rewrite List.Forall_forall in Hlt.
    assert (id d < auto_increment w) as Hid.
    { apply Hlt. apply list_elem_of_In, list_elem_of_lookup. eauto. }
    assert (Sql.with_id (auto_increment w) d = false) as ->; [|reflexivity].
    unfold Sql.with_id. apply Z.eqb_neq. lia.
Qed.

Lemma uploaded_document_gets_approved_and_reviewed_witness :
  let w := Sample.world Sample.calm in
  let w3 := final (put_api_review "alice" "Approved" "carol")
              (final (put_api_approve 4 "Approved" "bob")
                 (final (post_upload Sample.pdf_upload) w)) in
  exists d',
    documents w3 !! 3%nat = Some d' /\
    identity_columns d' =
      (4, "Report.PDF", Some "https://drive.google.com/uc?id=file0", "alice",
       Some 1700019802000) /\
    approval_columns d' = ("Approved", Some "bob", Some 1700019802000) /\
    review_columns d' = ("Approved", Some "carol", Some 1700000002123).
Proof.
  intros w w3. subst w3.
  destruct (uploaded_document_gets_approved_and_reviewed Sample.pdf_upload "bob" "Approved"
              "carol" w) as [(d' & Hrow & Hid & Happ & Hrev) _].
  - vm_compute. reflexivity.
  - vm_compute. reflexivity.
  - vm_compute. reflexivity.
  - exists d'. split; [exact Hrow|]. split; [|split].
    + rewrite Hid. vm_compute. reflexivity.
    + rewrite Happ. vm_compute. reflexivity.
    + rewrite Hrev. vm_compute. reflexivity.
Defined.

(** ** The two filtered views, side by side *)

Lemma like_itself (k r : string) :
  no_backslash k = true -> Sql.like (k +:+ "%") (k +:+ r) = true.
Proof.
  induction k as [|c k IH]; intros Hk.
  - apply like_any.
  - simpl in Hk. apply andb_true_iff in Hk as [Hc Hk]. apply negb_true_iff in Hc.
    specialize (IH Hk).
    change (String c k +:+ "%") with (String c (k +:+ "%")).
    change (String c k +:+ r) with (String c (k +:+ r)).
    destruct (Ascii.eqb_spec c "%") as [->|Hpc].
    + rewrite like_percent, (like_percent (k +:+ "%") (k +:+ r)), IH.
      cbn [orb]. apply orb_true_r.
    + apply Ascii.eqb_neq in Hpc. cbn [Sql.like]. rewrite Hpc.
      destruct (Ascii.eqb c "_"); [exact IH|].
      rewrite Hc, Ascii.eqb_refl. exact IH.
Qed.

Lemma like_anywhere (k l r : string) :
  no_backslash k = true -> Sql.like ("%" +:+ k +:+ "%") (l +:+ k +:+ r) = true.
Proof.
  intros Hk. change ("%" +:+ k +:+ "%") with (String "%" (k +:+ "%")).
  induction l as [|c l IH].
  - rewrite like_percent. change (EmptyString +:+ k +:+ r) with (k +:+ r).
    now rewrite like_itself.
  - change (String c l +:+ k +:+ r) with (String c (l +:+ k +:+ r)).
    rewrite like_percent. cbv beta iota. rewrite IH. apply orb_true_r.
Qed.

Lemma append_empty (k : string) : k +:+ EmptyString = k.
Proof.
  induction k as [|c k IH]; [reflexivity|].
  change (String c (k +:+ EmptyString) = String c k). now rewrite IH.
Qed.

(** X26. What the modern view finds, the legacy view finds too, unless the
    key has a backslash. For a key that is not empty and contains no
    backslash, the database answering, every row the modern view returns for
    the key is among the rows the legacy view returns for it. *)
Theorem legacy_view_covers_the_modern_view key (w : World) :
  key <> EmptyString ->
  no_backslash key = true ->
  db_fault (oracle w) (db_calls w) = None ->
  exists modern legacy,
    result (get_documents (Some key)) w = Returned (json 200 (Rows modern)) /\
    result (get_api_document (Some key)) w = Returned (json 200 (Rows legacy)) /\
    forall d, In d modern -> In d legacy.
Proof.
  intros Hkey Hplain Hdb. do 2 eexists.
  unfold result. rewrite (get_documents_run key w Hkey Hdb).
  rewrite (get_api_document_run key w Hkey Hdb).
  split; [reflexivity|]. split; [reflexivity|].
  intros d Hd. apply filter_In in Hd as [Hd Heq]. apply String.eqb_eq in Heq.
  apply filter_In. split; [exact Hd|]. rewrite Heq.
  rewrite <- (append_empty key) at 2.
  exact (like_anywhere key EmptyString EmptyString Hplain).
Qed.

Lemma legacy_view_covers_the_modern_view_witness :
  exists modern legacy,
    result (get_documents (Some "alice")) (Sample.world Sample.calm) =
      Returned (json 200 (Rows modern)) /\
    result (get_api_document (Some "alice")) (Sample.world Sample.calm) =
      Returned (json 200 (Rows legacy)) /\
    In Sample.alice_approved modern /\
    In Sample.alice_approved legacy.
Proof.
  destruct (legacy_view_covers_the_modern_view "alice" (Sample.world Sample.calm))
    as (modern & legacy & Hmodern & Hlegacy & Hcovers);
    [discriminate|reflexivity|reflexivity|].
  exists modern, legacy. split; [exact Hmodern|]. split; [exact Hlegacy|].
  assert (In Sample.alice_approved modern) as Hin.
  { assert (modern = [Sample.alice_approved; Sample.alice_pending]) as ->.
    { assert (result (get_documents (Some "alice")) (Sample.world Sample.calm) =
              Returned (json 200 (Rows [Sample.alice_approved; Sample.alice_pending])))
        as Hrun by (vm_compute; reflexivity).
      rewrite Hrun in Hmodern. now injection Hmodern. }
    left. reflexivity. }
  split; [exact Hin|exact (Hcovers _ Hin)].
Defined.

(** ** Notices are best effort *)

(** X27. The two notification functions never throw. Whatever the
    transporter answers, [sendApprovalNotification] and
    [sendEmailNotification] return normally, having handed over exactly one
    message; they change nothing that persists. *)
Theorem notifications_never_throw (w : World) :
  (forall toEmails documentName who st role,
     let run := sendApprovalNotification toEmails documentName who st role in
     result run w = Returned tt /\
     outbox (final run w) =
       outbox w ++ [approval_mail (EMAIL_USER (env w)) toEmails documentName who st role] /\
     persistent (final run w) = persistent w) /\
  (forall documentName who link,
     let run := sendEmailNotification documentName who link in
     result run w = Returned tt /\
     (exists notice, outbox (final run w) = outbox w ++ [notice] /\
                     to notice = [APPROVER_EMAIL (env w)]) /\
     persistent (final run w) = persistent w).
Proof.
  split.
  - intros toEmails documentName who st role run. subst run.
    destruct (sendApprovalNotification_run toEmails documentName who st role w) as [line Hrun].
    unfold result, final. rewrite Hrun. repeat split.
  - intros documentName who link run. subst run.
    destruct (sendEmailNotification_run documentName who link w) as (line & m & Hrun & Hto).
    unfold result, final. rewrite Hrun. split; [reflexivity|]. split; [|reflexivity].
    exists m. split; [reflexivity|exact Hto].
Qed.

(** X28. When Drive created the file and rejects the call that shares it,
    the upload answers 500 and inserts no row; the file stays in Drive and is
    not readable by anyone; no mail is handed over and the temporary file
    stays. *)
Theorem upload_rejected_at_sharing_leaves_a_private_file req (w : World) msg :
  fileFilter (originalname req) = None ->
  read_local (temp_path req w) w = None ->
  drive_fault (oracle w) (drive_calls w) = None ->
  drive_fault (oracle w) (S (drive_calls w)) = Some msg ->
  let w' := final (post_upload req) w in
  result (post_upload req) w =
    Returned (json 500 (ErrorDetail "Document upload failed" msg)) /\
  documents w' = documents w /\
  drive w' = drive w ++ [drive_file_of req w] /\
  anyone_reader (drive_file_of req w) = false /\
  outbox w' = outbox w /\
  uploads w' = uploads w ++ [{| local_path := temp_path req w; bytes := content req |}].
Proof.
  intros Hpdf Hfresh Hd1 Hd2 w'. subst w'.
  pose proof (post_upload_outcomes req w Hpdf Hfresh) as H. simpl in H.
  rewrite Hd1, Hd2 in H. destruct H as (Hres & Hdocs & _ & Hdr & Hup & Hout).
  repeat split; assumption.
Qed.

Lemma upload_rejected_at_sharing_leaves_a_private_file_witness :
  let o := {| db_fault := fun _ => None; mail_fault := fun _ => None;
              drive_fault := fun k => if (1 <=? k)%nat then Some "Rate limit exceeded" else None;
              drive_file_id := fun _ => "file0" |} in
  let w := Sample.world o in
  documents (final (post_upload Sample.pdf_upload) w) = documents w /\
  List.length (drive (final (post_upload Sample.pdf_upload) w)) = 1%nat.
Proof.
  intros o w.
  destruct (upload_rejected_at_sharing_leaves_a_private_file Sample.pdf_upload w
              "Rate limit exceeded") as (_ & Hdocs & Hdr & _).
  - vm_compute. reflexivity.
  - vm_compute. reflexivity.
  - reflexivity.
  - reflexivity.
  - split; [exact Hdocs|]. rewrite Hdr. reflexivity.
Defined.
